(** * prom-top: query composition and per-pod aggregation (package [top])

    Shallow embedding of [top], [Top], [selectQueryTemplates] and the
    query templates of the [top] package, together with the parts of
    [text/template], [strings], [hash/fnv] and the Prometheus client API
    that these functions rely on. *)

From Stdlib Require Import ZArith Ascii String List Lia.
From stdpp Require Import base option gmap strings list fin_maps.

Local Open Scope Z_scope.

(* ===================================================================== *)
(** ** Go strings *)
(* ===================================================================== *)

(** A Go string is a sequence of bytes; [string] (a list of [ascii]) is
    used for it throughout. *)

(** The one-byte string holding the double-quote character (byte 34). *)
Definition dq : string := String (ascii_of_nat 34) EmptyString.

(** [strings.Contains(s, substr)]: [substr] occurs within [s].  The empty
    [substr] occurs in every string. *)
Fixpoint Contains (s substr : string) : bool :=
  String.prefix substr s ||
  match s with
  | EmptyString => false
  | String _ rest => Contains rest substr
  end.

(** The number of positions of [s] at which [substr] starts. *)
Fixpoint occurrences (s substr : string) : nat :=
  ((if String.prefix substr s then 1 else 0) +
   match s with
   | EmptyString => 0
   | String _ rest => occurrences rest substr
   end)%nat.

(** [len(s)] for a Go string: its number of bytes. *)
Definition len (s : string) : Z := Z.of_nat (String.length s).

(* ===================================================================== *)
(** ** text/template, restricted to field actions *)
(* ===================================================================== *)

Module template.

(** A parsed template: literal text and [{{.Field}}] actions. *)
Inductive Node : Type :=
| TextNode (text : string)
| FieldNode (name : string).

Definition Template : Type := list Node.

Definition flushText (acc : string) (rest : Template) : Template :=
  match acc with
  | EmptyString => rest
  | _ => TextNode acc :: rest
  end.

Definition snoc (s : string) (c : ascii) : string :=
  String.append s (String c EmptyString).

Definition is_ident_char (c : ascii) : bool :=
  let n := nat_of_ascii c in
  ((65 <=? n) && (n <=? 90) || (97 <=? n) && (n <=? 122) ||
   (48 <=? n) && (n <=? 57) || (n =? 95))%nat.

Fixpoint all_ident (s : string) : bool :=
  match s with
  | EmptyString => true
  | String c r => is_ident_char c && all_ident r
  end.

(** The text between the delimiters must be a field reference
    [.Name]; every other action is outside the modelled fragment. *)
Definition fieldOf (action : string) : option string :=
  match action with
  | String c name =>
      if Ascii.eqb c "."%char && negb (String.eqb name EmptyString)
         && all_ident name
      then Some name else None
  | EmptyString => None
  end.

(** The lexer: [inAction = false] while reading literal text,
    [inAction = true] between the delimiters; [acc] is the text read
    so far in the current item. *)
Fixpoint scan (inAction : bool) (acc : string) (s : string)
  : option Template :=
  match s with
  | EmptyString =>
      if inAction then None else Some (flushText acc [])
  | String c r =>
      if inAction then
        match r with
        | String c2 r2 =>
            if Ascii.eqb c "}"%char && Ascii.eqb c2 "}"%char then
              match fieldOf acc, scan false EmptyString r2 with
              | Some f, Some t => Some (FieldNode f :: t)
              | _, _ => None
              end
            else scan true (snoc acc c) r
        | EmptyString => None
        end
      else
        match r with
        | String c2 r2 =>
            if Ascii.eqb c "{"%char && Ascii.eqb c2 "{"%char then
              match scan true EmptyString r2 with
              | Some t => Some (flushText acc t)
              | None => None
              end
            else scan false (snoc acc c) r
        | EmptyString => Some (flushText (snoc acc c) [])
        end
  end.

(** [template.New(name).Parse(text)]; [None] is a parse error. *)
Definition Parse (text : string) : option Template :=
  scan false EmptyString text.

(** The data handed to [Execute]: the fields of the anonymous struct,
    by name. *)
Definition Data : Type := list (string * string).

Fixpoint field (d : Data) (name : string) : option string :=
  match d with
  | [] => None
  | (k, v) :: r => if String.eqb k name then Some v else field r name
  end.

(** [t.Execute(buf, data)]: the text written to the buffer, or [None]
    when a field is not part of the data. *)
Fixpoint Execute (t : Template) (d : Data) : option string :=
  match t with
  | [] => Some EmptyString
  | TextNode s :: r =>
      match Execute r d with
      | Some out => Some (String.append s out)
      | None => None
      end
  | FieldNode f :: r =>
      match field d f, Execute r d with
      | Some v, Some out => Some (String.append v out)
      | _, _ => None
      end
  end.

End template.

(* ===================================================================== *)
(** ** Metrics and query templates *)
(* ===================================================================== *)

Definition cpuMetric : string := "container_cpu_usage_seconds_total".
Definition memoryMetric : string := "container_memory_usage_bytes".

Definition quantileOverTimeTemplate : string :=
  "quantile_over_time(.95, {{.Metric}}[{{.Range}}])".
Definition avgOverTimeTemplate : string :=
  "avg_over_time({{.Metric}}[{{.Range}}])".
Definition maxOverTimeTemplate : string :=
  "max_over_time({{.Metric}}[{{.Range}}])".
Definition minOverTimeTemplate : string :=
  "min_over_time({{.Metric}}[{{.Range}}])".
Definition instantTemplate : string := "{{.Metric}}".

(** [appLabelQuery] wraps a rendered query in order to add the
    [label_app] label to the metric. *)
Definition appLabelQuery : string :=
  String.append "sum by (pod, label_app) (kube_pod_labels{pod!="
 (String.append dq
 (String.append dq
   "}) * on (pod) group_right(label_app) sum by (pod, namespace, node) ({{.Query}})")).

(** [targetMetrics] specify the metrics to be queried. *)
Definition targetMetrics : list string := [cpuMetric; memoryMetric].

Inductive error : Type :=
| ErrParseQueryType (cause : error)
| ErrComposeBase (tmpl : string)
| ErrComposeLabel (query : string)
| ErrQueryFailed (query : string) (cause : string)
| ErrExpectedVector.

Definition selectQueryTemplates (q : string) : list string * option error :=
  let t : list string := [] in
  let t :=
    if String.eqb q "q" then t ++ [quantileOverTimeTemplate]
    else if String.eqb q "a" then t ++ [avgOverTimeTemplate]
    else if String.eqb q "i" then t ++ [instantTemplate]
    else
      (* instant is excluded as its generally an uninteresting data
         point in this context *)
      [quantileOverTimeTemplate; avgOverTimeTemplate;
       maxOverTimeTemplate; minOverTimeTemplate]
  in (t, None).


(* ===================================================================== *)
(** ** hash/fnv: the 32-bit FNV-1a hash *)
(* ===================================================================== *)

Module fnv.

Definition offset32 : Z := 2166136261.
Definition prime32 : Z := 16777619.

(** The state of a [sum32a] hasher is one 32-bit word. *)
Definition New32a : Z := offset32.

Definition byte (c : ascii) : Z := Z.of_nat (nat_of_ascii c).

(** [Write]: [hash ^= c; hash *= prime32] for every byte, in 32 bits.
    It never returns an error. *)
Fixpoint Write (h : Z) (data : string) : Z :=
  match data with
  | EmptyString => h
  | String c r => Write ((Z.lxor h (byte c) * prime32) mod 2 ^ 32) r
  end.

Definition Sum32 (h : Z) : Z := h.

Definition Reset (h : Z) : Z := offset32.

End fnv.


(* ===================================================================== *)
(** ** Data model *)
(* ===================================================================== *)

(** A [float64] is carried as its 64-bit IEEE-754 pattern: the code only
    copies sample values, so two values are the same bytes exactly when
    their patterns are equal.  The zero value is the pattern [0]. *)
Definition float64 : Type := Z.

(** A [time.Time] instant. *)
Definition Time : Type := Z.

Module context.
Inductive Context : Type :=
| Background
| Derived (id : nat).
End context.

Module model.

(** [model.Sample]: a label set ([model.Metric], a map from label
    names to label values), a value and a timestamp. *)
Record Sample : Type := {
  Metric : gmap string string;
  Value : float64;
  Timestamp : Time
}.

(** The dynamic types behind the [model.Value] interface.  A vector is a
    slice of pointers to samples in Go; its elements are taken to be
    non-nil, as those of the vectors the client decodes are, so a run
    that dereferences a nil sample is outside what is modelled. *)
Inductive Val : Type :=
| NilValue
| ScalarValue (v : float64) (t : Time)
| StringValue (s : string) (t : Time)
| VectorValue (v : list Sample)
| MatrixValue (m : list (gmap string string * list (Time * float64))).

End model.

(** [sample.Metric[name]]: the zero value (the empty string) when the
    label is absent. *)
Definition label (sample : model.Sample) (name : string) : string :=
  default EmptyString (model.Metric sample !! name).

Module v1.

(** What one call of [API.Query] returns. *)
Record QueryReturn : Type := {
  value : model.Val;
  warnings : list string;
  err : option string
}.

(** The query interface.  The backend is outside the program: its
    answer may depend on everything the run has done before, which is
    summarised by the number [n] of earlier observable actions. *)
Record API : Type := {
  Query : forall (n : nat) (ctx : option context.Context)
                 (query : string) (ts : Time), QueryReturn
}.

End v1.

Record Config : Type := {
  Context : option context.Context;
  QueryType : string;
  Range : string;
  PrometheusClient : v1.API
}.

(** The earlier form of the package, [pkg/top/queries.go]: the queries
    are composed in one pass, before any is executed. *)
Module queries_go.

Definition podCpu : string := "pod:container_cpu_usage:sum".
Definition podMem : string := "pod:container_memory_usage_bytes:sum".

Definition targetMetrics : list string := [podCpu; podMem].

Definition appLabelQuery : string :=
  String.append "sum by (pod, label_app) (kube_pod_labels{pod!="
 (String.append dq
 (String.append dq
 (String.append ", label_app!="
 (String.append dq
 (String.append dq
 (String.append
   "}) * on (pod) group_right(label_app) sum by (pod, namespace, node) ({{.Query}})"
   (String (ascii_of_nat 10) EmptyString))))))).

Definition T_INSTANT : string := "i".
Definition T_QUANTILE : string := "q".
Definition T_AVERAGE : string := "a".

Definition selectQueryTemplates (q : string) : list string * option error :=
  let t : list string := [] in
  let t :=
    if String.eqb q T_QUANTILE then t ++ [quantileOverTimeTemplate]
    else if String.eqb q T_AVERAGE then t ++ [avgOverTimeTemplate]
    else if String.eqb q T_INSTANT then t ++ [instantTemplate]
    else [quantileOverTimeTemplate; avgOverTimeTemplate; instantTemplate]
  in (t, None).

(** The inner loop, over the target metrics, for the parsed template
    [tmp] of the text [t]. *)
Fixpoint forMetrics (appLabelsTmp tmp : template.Template) (t cfgRange : string)
  (metrics : list string) (queries : list string) : list string + error :=
  match metrics with
  | [] => inl queries
  | tm :: rest =>
      match template.Execute tmp [("Metric", tm); ("Range", cfgRange)] with
      | None => inr (ErrComposeBase t)
      | Some metricBuf =>
          match template.Execute appLabelsTmp [("Query", metricBuf)] with
          | None => inr (ErrComposeLabel metricBuf)
          | Some labelBuf =>
              forMetrics appLabelsTmp tmp t cfgRange rest (queries ++ [labelBuf])
          end
      end
  end.

(** The outer loop, over the templates; [None] is a panic of
    [template.Must]. *)
Fixpoint forTemplates (appLabelsTmp : template.Template) (cfgRange : string)
  (metricTmps : list string) (queries : list string)
  : option (list string + error) :=
  match metricTmps with
  | [] => Some (inl queries)
  | t :: rest =>
      match template.Parse t with
      | None => None
      | Some tmp =>
          match forMetrics appLabelsTmp tmp t cfgRange targetMetrics queries with
          | inl queries => forTemplates appLabelsTmp cfgRange rest queries
          | inr e => Some (inr e)
          end
      end
  end.

Definition generateTargetMetricQueries (cfg : Config)
  : option (list string + error) :=
  match selectQueryTemplates (QueryType cfg) with
  | (_, Some e) => Some (inr (ErrParseQueryType e))
  | (metricTmps, None) =>
      match template.Parse appLabelQuery with
      | None => None
      | Some appLabelsTmp =>
          forTemplates appLabelsTmp (Range cfg) metricTmps []
      end
  end.

End queries_go.

Module dbhandler.

(** Modelled from the spec: the struct [dbhandler.Row] is declared in
    package [dbhandler], which is not part of the sources at hand.  Its
    fields are those the [top] package reads and writes, with the
    types it uses them at; the spec's AggregateRecord lists the same
    attributes. *)
Record Row : Type := {
  Metric : string;
  Range : string;
  Pod : string;
  Namespace : string;
  LabelApp : string;
  QueryTime : string;
  Q95Value : float64;
  MaxValue : float64;
  MinValue : float64;
  AvgValue : float64;
  InstValue : float64
}.

End dbhandler.

Definition PodMetric : Type := dbhandler.Row.
Definition PodMetricTable : Type := list PodMetric.

(** [new(PodMetric)]: every field at its zero value. *)
Definition new_PodMetric : PodMetric :=
  {| dbhandler.Metric := EmptyString; dbhandler.Range := EmptyString;
     dbhandler.Pod := EmptyString; dbhandler.Namespace := EmptyString;
     dbhandler.LabelApp := EmptyString; dbhandler.QueryTime := EmptyString;
     dbhandler.Q95Value := 0; dbhandler.MaxValue := 0;
     dbhandler.MinValue := 0; dbhandler.AvgValue := 0;
     dbhandler.InstValue := 0 |}.

(** Field assignments [p.F = v]: the record with the field [F] replaced. *)
Module assign.

Definition Metric (v : string) (p : PodMetric) : PodMetric :=
  {| dbhandler.Metric := v;
     dbhandler.Range := dbhandler.Range p;
     dbhandler.Pod := dbhandler.Pod p;
     dbhandler.Namespace := dbhandler.Namespace p;
     dbhandler.LabelApp := dbhandler.LabelApp p;
     dbhandler.QueryTime := dbhandler.QueryTime p;
     dbhandler.Q95Value := dbhandler.Q95Value p;
     dbhandler.MaxValue := dbhandler.MaxValue p;
     dbhandler.MinValue := dbhandler.MinValue p;
     dbhandler.AvgValue := dbhandler.AvgValue p;
     dbhandler.InstValue := dbhandler.InstValue p |}.

Definition Range (v : string) (p : PodMetric) : PodMetric :=
  {| dbhandler.Metric := dbhandler.Metric p;
     dbhandler.Range := v;
     dbhandler.Pod := dbhandler.Pod p;
     dbhandler.Namespace := dbhandler.Namespace p;
     dbhandler.LabelApp := dbhandler.LabelApp p;
     dbhandler.QueryTime := dbhandler.QueryTime p;
     dbhandler.Q95Value := dbhandler.Q95Value p;
     dbhandler.MaxValue := dbhandler.MaxValue p;
     dbhandler.MinValue := dbhandler.MinValue p;
     dbhandler.AvgValue := dbhandler.AvgValue p;
     dbhandler.InstValue := dbhandler.InstValue p |}.

Definition Pod (v : string) (p : PodMetric) : PodMetric :=
  {| dbhandler.Metric := dbhandler.Metric p;
     dbhandler.Range := dbhandler.Range p;
     dbhandler.Pod := v;
     dbhandler.Namespace := dbhandler.Namespace p;
     dbhandler.LabelApp := dbhandler.LabelApp p;
     dbhandler.QueryTime := dbhandler.QueryTime p;
     dbhandler.Q95Value := dbhandler.Q95Value p;
     dbhandler.MaxValue := dbhandler.MaxValue p;
     dbhandler.MinValue := dbhandler.MinValue p;
     dbhandler.AvgValue := dbhandler.AvgValue p;
     dbhandler.InstValue := dbhandler.InstValue p |}.

Definition Namespace (v : string) (p : PodMetric) : PodMetric :=
  {| dbhandler.Metric := dbhandler.Metric p;
     dbhandler.Range := dbhandler.Range p;
     dbhandler.Pod := dbhandler.Pod p;
     dbhandler.Namespace := v;
     dbhandler.LabelApp := dbhandler.LabelApp p;
     dbhandler.QueryTime := dbhandler.QueryTime p;
     dbhandler.Q95Value := dbhandler.Q95Value p;
     dbhandler.MaxValue := dbhandler.MaxValue p;
     dbhandler.MinValue := dbhandler.MinValue p;
     dbhandler.AvgValue := dbhandler.AvgValue p;
     dbhandler.InstValue := dbhandler.InstValue p |}.

Definition LabelApp (v : string) (p : PodMetric) : PodMetric :=
  {| dbhandler.Metric := dbhandler.Metric p;
     dbhandler.Range := dbhandler.Range p;
     dbhandler.Pod := dbhandler.Pod p;
     dbhandler.Namespace := dbhandler.Namespace p;
     dbhandler.LabelApp := v;
     dbhandler.QueryTime := dbhandler.QueryTime p;
     dbhandler.Q95Value := dbhandler.Q95Value p;
     dbhandler.MaxValue := dbhandler.MaxValue p;
     dbhandler.MinValue := dbhandler.MinValue p;
     dbhandler.AvgValue := dbhandler.AvgValue p;
     dbhandler.InstValue := dbhandler.InstValue p |}.

Definition QueryTime (v : string) (p : PodMetric) : PodMetric :=
  {| dbhandler.Metric := dbhandler.Metric p;
     dbhandler.Range := dbhandler.Range p;
     dbhandler.Pod := dbhandler.Pod p;
     dbhandler.Namespace := dbhandler.Namespace p;
     dbhandler.LabelApp := dbhandler.LabelApp p;
     dbhandler.QueryTime := v;
     dbhandler.Q95Value := dbhandler.Q95Value p;
     dbhandler.MaxValue := dbhandler.MaxValue p;
     dbhandler.MinValue := dbhandler.MinValue p;
     dbhandler.AvgValue := dbhandler.AvgValue p;
     dbhandler.InstValue := dbhandler.InstValue p |}.

Definition Q95Value (v : float64) (p : PodMetric) : PodMetric :=
  {| dbhandler.Metric := dbhandler.Metric p;
     dbhandler.Range := dbhandler.Range p;
     dbhandler.Pod := dbhandler.Pod p;
     dbhandler.Namespace := dbhandler.Namespace p;
     dbhandler.LabelApp := dbhandler.LabelApp p;
     dbhandler.QueryTime := dbhandler.QueryTime p;
     dbhandler.Q95Value := v;
     dbhandler.MaxValue := dbhandler.MaxValue p;
     dbhandler.MinValue := dbhandler.MinValue p;
     dbhandler.AvgValue := dbhandler.AvgValue p;
     dbhandler.InstValue := dbhandler.InstValue p |}.

Definition MaxValue (v : float64) (p : PodMetric) : PodMetric :=
  {| dbhandler.Metric := dbhandler.Metric p;
     dbhandler.Range := dbhandler.Range p;
     dbhandler.Pod := dbhandler.Pod p;
     dbhandler.Namespace := dbhandler.Namespace p;
     dbhandler.LabelApp := dbhandler.LabelApp p;
     dbhandler.QueryTime := dbhandler.QueryTime p;
     dbhandler.Q95Value := dbhandler.Q95Value p;
     dbhandler.MaxValue := v;
     dbhandler.MinValue := dbhandler.MinValue p;
     dbhandler.AvgValue := dbhandler.AvgValue p;
     dbhandler.InstValue := dbhandler.InstValue p |}.

Definition MinValue (v : float64) (p : PodMetric) : PodMetric :=
  {| dbhandler.Metric := dbhandler.Metric p;
     dbhandler.Range := dbhandler.Range p;
     dbhandler.Pod := dbhandler.Pod p;
     dbhandler.Namespace := dbhandler.Namespace p;
     dbhandler.LabelApp := dbhandler.LabelApp p;
     dbhandler.QueryTime := dbhandler.QueryTime p;
     dbhandler.Q95Value := dbhandler.Q95Value p;
     dbhandler.MaxValue := dbhandler.MaxValue p;
     dbhandler.MinValue := v;
     dbhandler.AvgValue := dbhandler.AvgValue p;
     dbhandler.InstValue := dbhandler.InstValue p |}.

Definition AvgValue (v : float64) (p : PodMetric) : PodMetric :=
  {| dbhandler.Metric := dbhandler.Metric p;
     dbhandler.Range := dbhandler.Range p;
     dbhandler.Pod := dbhandler.Pod p;
     dbhandler.Namespace := dbhandler.Namespace p;
     dbhandler.LabelApp := dbhandler.LabelApp p;
     dbhandler.QueryTime := dbhandler.QueryTime p;
     dbhandler.Q95Value := dbhandler.Q95Value p;
     dbhandler.MaxValue := dbhandler.MaxValue p;
     dbhandler.MinValue := dbhandler.MinValue p;
     dbhandler.AvgValue := v;
     dbhandler.InstValue := dbhandler.InstValue p |}.

End assign.

(* ===================================================================== *)
(** ** The run: state, observable actions, loops *)
(* ===================================================================== *)

(** What a run does that the outside can see: it reads the clock and it
    calls the query interface.  A query event records the target metric
    and the template the query was composed from, the composed text, the
    evaluation timestamp handed over and what the call returned. *)
Inductive Event : Type :=
| EvNow (t : Time)
| EvQuery (tm qt query : string) (ts : Time) (r : v1.QueryReturn).

(** The mutable state of [top]: the actions so far (oldest first), the
    table [podMetricHashTable] and the state of the shared hasher. *)
Record State : Type := {
  events : list Event;
  podMetricHashTable : gmap Z PodMetric;
  hasher : Z
}.

(** How a loop body ends: it falls through to the next iteration, it
    returns an error from [top], or it panics ([template.Must]). *)
Inductive Outcome : Type :=
| Continue (st : State)
| Return (e : error) (st : State)
| Panic (st : State).

(** [for _, a := range l { body }] with early exit. *)
Fixpoint forEach {A : Type} (body : A -> State -> Outcome) (l : list A)
  (st : State) : Outcome :=
  match l with
  | [] => Continue st
  | a :: r =>
      match body a st with
      | Continue st' => forEach body r st'
      | stop => stop
      end
  end.

(** What [top] gives back: its two results, or a panic. *)
Inductive Result : Type :=
| Returned (table : PodMetricTable) (e : option error)
| Panicked.

(** [fmt.Sprintf("%s-%s-%s", ns, pod, tm)]. *)
Definition Sprintf_id (ns pod tm : string) : string :=
  String.append ns (String.append "-" (String.append pod (String.append "-" tm))).

(** The key a sample is filed under: the FNV-1a sum of the formatted
    identity, computed on a freshly reset hasher. *)
Definition fingerprint (ns pod tm : string) : Z :=
  fnv.Sum32 (fnv.Write fnv.New32a (Sprintf_id ns pod tm)).

(** The [switch] on the template text [qt]; the first case that holds is
    taken. *)
Definition setScalar (qt : string) (v : float64) (id : Z)
  (tbl : gmap Z PodMetric) : gmap Z PodMetric :=
  if Contains qt "quantile_over_time" then alter (assign.Q95Value v) id tbl
  else if Contains qt "avg_over_time" then alter (assign.AvgValue v) id tbl
  else if Contains qt "max_over_time" then alter (assign.MaxValue v) id tbl
  else if Contains qt "min_over_time" then alter (assign.MinValue v) id tbl
  else if 0 <? len qt then
    (* instant metrics will not have the above aggregation queries;
       assume it's an instant query if the string is non-0 len *)
    alter (assign.MinValue v) id tbl
  else tbl.

Section Run.

(** [time.Time.Format] and the layout [dbhandler.TimestampFormat]; the
    constant is declared in package [dbhandler], outside the sources at
    hand, and is taken as a parameter. *)
Variable Format : Time -> string -> string.
Variable TimestampFormat : string.

(** [time.Now()]: the reading of the wall clock when it is the [n]-th
    observable action of the run. *)
Variable Now : nat -> Time.

(** The body of [for _, sample := range vector]. *)
Definition foldSample (now : Time) (cfgRange tm qt : string)
  (st : State) (sample : model.Sample) : State :=
  let ns := label sample "namespace" in
  let pod := label sample "pod" in
  (* The hash is derived from the namespace, pod name, and target metric *)
  let h := fnv.Write (hasher st) (Sprintf_id ns pod tm) in
  let id := fnv.Sum32 h in
  let h := fnv.Reset h in
  let tbl := podMetricHashTable st in
  let tbl :=
    match tbl !! id with
    | Some _ => tbl
    | None => <[id := new_PodMetric]> tbl
    end in
  let labelApp := label sample "label_app" in
  let tbl := alter (assign.Namespace ns) id tbl in
  let tbl := alter (assign.Pod pod) id tbl in
  let tbl := alter (assign.Metric tm) id tbl in
  let tbl := alter (assign.LabelApp labelApp) id tbl in
  let tbl := alter (assign.Range cfgRange) id tbl in
  let tbl := alter (assign.QueryTime (Format now TimestampFormat)) id tbl in
  let tbl := setScalar qt (model.Value sample) id tbl in
  {| events := events st; podMetricHashTable := tbl; hasher := h |}.

Definition foldVector (now : Time) (cfgRange tm qt : string)
  (st : State) (vector : list model.Sample) : State :=
  fold_left (foldSample now cfgRange tm qt) vector st.

(** Composition of one query: the template [qt] is parsed and executed
    on the metric and the range, and the result is wrapped by the
    label template. *)
Inductive Composed : Type :=
| ComposedQuery (query : string)
| ComposeError (e : error)
| ComposePanic.

Definition composeQuery (appLabelsTmp : template.Template)
  (cfgRange tm qt : string) : Composed :=
  match template.Parse qt with
  | None => ComposePanic
  | Some tmp =>
      match template.Execute tmp [("Metric", tm); ("Range", cfgRange)] with
      | None => ComposeError (ErrComposeBase qt)
      | Some queryBuf =>
          match template.Execute appLabelsTmp [("Query", queryBuf)] with
          | None => ComposeError (ErrComposeLabel queryBuf)
          | Some labelBuf => ComposedQuery labelBuf
          end
      end
  end.

(** The body of the inner loop, for the target metric [tm] and the
    template [qt]. *)
Definition queryAndFold (cfg : Config) (now : Time)
  (appLabelsTmp : template.Template) (tm qt : string) (st : State)
  : Outcome :=
  match composeQuery appLabelsTmp (Range cfg) tm qt with
  | ComposePanic => Panic st
  | ComposeError e => Return e st
  | ComposedQuery labelBuf =>
      (* execute the query; the warnings are not bound to a name *)
      let r := v1.Query (PrometheusClient cfg) (length (events st))
                 (Context cfg) labelBuf now in
      let st := {| events := events st ++ [EvQuery tm qt labelBuf now r];
                   podMetricHashTable := podMetricHashTable st;
                   hasher := hasher st |} in
      match v1.err r with
      | Some e => Return (ErrQueryFailed labelBuf e) st
      | None =>
          match v1.value r with
          | model.VectorValue vector =>
              Continue (foldVector now (Range cfg) tm qt st vector)
          | _ => Return ErrExpectedVector st
          end
      end
  end.

(** The two nested loops of [top]. *)
Definition runQueries (cfg : Config) (now : Time)
  (appLabelsTmp : template.Template)
  (metrics queryTemplates : list string) (st : State) : Outcome :=
  forEach (fun tm => forEach (queryAndFold cfg now appLabelsTmp tm)
                       queryTemplates) metrics st.

(** The records of the table.  Go leaves the order in which [range]
    visits a map unspecified; the order chosen here carries no
    meaning, and nothing below depends on it. *)
Definition tableRecords (tbl : gmap Z PodMetric) : PodMetricTable :=
  (map_to_list tbl).*2.

Definition top (cfg : Config) : Result * list Event :=
  (* get current time to maintain static end of range in queries *)
  let now := Now 0%nat in
  let ev := [EvNow now] in
  match selectQueryTemplates (QueryType cfg) with
  | (_, Some e) => (Returned [] (Some (ErrParseQueryType e)), ev)
  | (queryTemplates, None) =>
      match template.Parse appLabelQuery with
      | None => (Panicked, ev)
      | Some appLabelsTmp =>
          let st := {| events := ev; podMetricHashTable := ∅;
                       hasher := fnv.New32a |} in
          match runQueries cfg now appLabelsTmp targetMetrics
                  queryTemplates st with
          | Continue st =>
              (Returned (tableRecords (podMetricHashTable st)) None,
               events st)
          | Return e st => (Returned [] (Some e), events st)
          | Panic st => (Panicked, events st)
          end
      end
  end.

Definition defaultRange : string := "10m".

Definition Top (cfg : Config) : Result * list Event :=
  let cfg :=
    match Context cfg with
    | None => {| Context := Some context.Background;
                 QueryType := QueryType cfg; Range := Range cfg;
                 PrometheusClient := PrometheusClient cfg |}
    | Some _ => cfg
    end in
  let cfg :=
    if len (Range cfg) =? 0
    then {| Context := Context cfg; QueryType := QueryType cfg;
            Range := defaultRange;
            PrometheusClient := PrometheusClient cfg |}
    else cfg in
  top cfg.

End Run.

(* ===================================================================== *)
(** ** The Aggregator, seen from outside the loops *)
(* ===================================================================== *)

(** The five scalar fields of a record. *)
Inductive ScalarField : Type :=
| FQ95 | FAvg | FMax | FMin | FInst.

Global Instance ScalarField_eq_dec : EqDecision ScalarField.
Proof. solve_decision. Defined.

Definition scalar (f : ScalarField) (p : PodMetric) : float64 :=
  match f with
  | FQ95 => dbhandler.Q95Value p
  | FAvg => dbhandler.AvgValue p
  | FMax => dbhandler.MaxValue p
  | FMin => dbhandler.MinValue p
  | FInst => dbhandler.InstValue p
  end.

(** The field the [switch] of [top] writes for a template text, if any:
    the same chain of tests as [setScalar]. *)
Definition writtenField (qt : string) : option ScalarField :=
  if Contains qt "quantile_over_time" then Some FQ95
  else if Contains qt "avg_over_time" then Some FAvg
  else if Contains qt "max_over_time" then Some FMax
  else if Contains qt "min_over_time" then Some FMin
  else if 0 <? len qt then Some FMin
  else None.

(** The key of a sample of the target metric [tm]. *)
Definition sampleId (tm : string) (sample : model.Sample) : Z :=
  fingerprint (label sample "namespace") (label sample "pod") tm.

(** The key a record's own descriptive fields hash to. *)
Definition recordId (p : PodMetric) : Z :=
  fingerprint (dbhandler.Namespace p) (dbhandler.Pod p) (dbhandler.Metric p).

(** One input of the Aggregator: the target metric and the template of
    a query, and the vector the query returned. *)
Definition Input : Type := string * string * list model.Sample.

(** A sample together with the metric and template of its query. *)
Definition Tagged : Type := string * string * model.Sample.

Definition tagged (inputs : list Input) : list Tagged :=
  flat_map (fun i : Input => map (fun s => (i.1.1, i.1.2, s)) i.2) inputs.

Definition taggedId (t : Tagged) : Z := sampleId t.1.1 t.2.

(** The samples of a run filed under the key [i], in the order they are
    folded. *)
Definition filedUnder (i : Z) (l : list Tagged) : list Tagged :=
  filter (fun t => taggedId t = i) l.

(** The fresh state of a run. *)
Definition initState (ev : list Event) : State :=
  {| events := ev; podMetricHashTable := ∅; hasher := fnv.New32a |}.

(** The inputs a run has folded: the queries that returned a vector and
    no error. *)
Definition inputsOf (evs : list Event) : list Input :=
  flat_map (fun e =>
    match e with
    | EvQuery tm qt _ _ r =>
        match v1.err r, v1.value r with
        | None, model.VectorValue v => [(tm, qt, v)]
        | _, _ => []
        end
    | EvNow _ => []
    end) evs.

(** The query texts a run has handed to the query interface. *)
Definition queriesOf (evs : list Event) : list string :=
  flat_map (fun e =>
    match e with
    | EvQuery _ _ q _ _ => [q]
    | EvNow _ => []
    end) evs.

Section Aggregator.

Variable Format : Time -> string -> string.
Variable TimestampFormat : string.

(** What folding one sample does to the record it is filed under. *)
Definition sampleUpdate (now : Time) (cfgRange : string) (t : Tagged)
  (p : PodMetric) : PodMetric :=
  let '(tm, qt, sample) := t in
  let p := assign.Namespace (label sample "namespace") p in
  let p := assign.Pod (label sample "pod") p in
  let p := assign.Metric tm p in
  let p := assign.LabelApp (label sample "label_app") p in
  let p := assign.Range cfgRange p in
  let p := assign.QueryTime (Format now TimestampFormat) p in
  match writtenField qt with
  | Some FQ95 => assign.Q95Value (model.Value sample) p
  | Some FAvg => assign.AvgValue (model.Value sample) p
  | Some FMax => assign.MaxValue (model.Value sample) p
  | Some FMin => assign.MinValue (model.Value sample) p
  | _ => p
  end.

Definition applyAll (now : Time) (cfgRange : string) (l : list Tagged)
  (p : PodMetric) : PodMetric :=
  fold_left (fun p t => sampleUpdate now cfgRange t p) l p.

(** The Aggregator fold over a sequence of (query, vector) inputs. *)
Definition aggregate (now : Time) (cfgRange : string)
  (inputs : list Input) (st : State) : State :=
  fold_left (fun st (i : Input) =>
               foldVector Format TimestampFormat now cfgRange i.1.1 i.1.2 st i.2)
            inputs st.

End Aggregator.

(* ===================================================================== *)
(** ** The documented behaviour, in the spec's words *)
(* ===================================================================== *)

Inductive TemplateKind : Type :=
| Quantile95 | Average | Maximum | Minimum | Instantaneous.

Global Instance TemplateKind_eq_dec : EqDecision TemplateKind.
Proof. solve_decision. Defined.

Definition templateOf (k : TemplateKind) : string :=
  match k with
  | Quantile95 => quantileOverTimeTemplate
  | Average => avgOverTimeTemplate
  | Maximum => maxOverTimeTemplate
  | Minimum => minOverTimeTemplate
  | Instantaneous => instantTemplate
  end.

(** The field of the record a kind is documented to populate. *)
Definition fieldOfKind (k : TemplateKind) : ScalarField :=
  match k with
  | Quantile95 => FQ95
  | Average => FAvg
  | Maximum => FMax
  | Minimum => FMin
  | Instantaneous => FInst
  end.

(** The Template Registry as documented: selector to set of kinds. *)
Definition documentedKinds (selector : string) : list TemplateKind :=
  if String.eqb selector "q" then [Quantile95]
  else if String.eqb selector "a" then [Average]
  else if String.eqb selector "i" then [Instantaneous]
  else [Quantile95; Average; Maximum; Minimum].

(** A template with the metric name and the range substituted. *)
Definition substituted (k : TemplateKind) (tm range : string) : string :=
  match k with
  | Quantile95 => "quantile_over_time(.95, " +:+ tm +:+ "[" +:+ range +:+ "])"
  | Average => "avg_over_time(" +:+ tm +:+ "[" +:+ range +:+ "])"
  | Maximum => "max_over_time(" +:+ tm +:+ "[" +:+ range +:+ "])"
  | Minimum => "min_over_time(" +:+ tm +:+ "[" +:+ range +:+ "])"
  | Instantaneous => tm
  end.

(** The label-join transform around a rendered query. *)
Definition labelJoin (query : string) : string :=
  "sum by (pod, label_app) (kube_pod_labels{pod!=" +:+ dq +:+ dq +:+
  "}) * on (pod) group_right(label_app) sum by (pod, namespace, node) (" +:+
  query +:+ ")".

(** One composed query per (metric, kind) pair, metrics outermost. *)
Definition expectedQueries (range : string) (metrics : list string)
  (kinds : list TemplateKind) : list string :=
  flat_map (fun tm => map (fun k => labelJoin (substituted k tm range)) kinds)
           metrics.

(* ===================================================================== *)
(** ** Notions used to state the properties *)
(* ===================================================================== *)

(** An update of a record overwrites: it sets a field to a constant or
    leaves it as it was. *)
Definition keepsOrSets {A : Type} (proj : PodMetric -> A)
  (F : PodMetric -> PodMetric) : Prop :=
  (exists c, forall p, proj (F p) = c) \/ (forall p, proj (F p) = proj p).

Record Overwrite (F : PodMetric -> PodMetric) : Prop := {
  ow_Metric : keepsOrSets dbhandler.Metric F;
  ow_Range : keepsOrSets dbhandler.Range F;
  ow_Pod : keepsOrSets dbhandler.Pod F;
  ow_Namespace : keepsOrSets dbhandler.Namespace F;
  ow_LabelApp : keepsOrSets dbhandler.LabelApp F;
  ow_QueryTime : keepsOrSets dbhandler.QueryTime F;
  ow_Q95Value : keepsOrSets dbhandler.Q95Value F;
  ow_MaxValue : keepsOrSets dbhandler.MaxValue F;
  ow_MinValue : keepsOrSets dbhandler.MinValue F;
  ow_AvgValue : keepsOrSets dbhandler.AvgValue F;
  ow_InstValue : keepsOrSets dbhandler.InstValue F
}.

(** Folding one sample, as an operation on the table. *)
Definition fileSample (Format : Time -> string -> string)
  (TimestampFormat : string) (now : Time) (cfgRange : string)
  (tbl : gmap Z PodMetric) (t : Tagged) : gmap Z PodMetric :=
  <[taggedId t := sampleUpdate Format TimestampFormat now cfgRange t
                    (default new_PodMetric (tbl !! taggedId t))]> tbl.

Definition stateOf (o : Outcome) : State :=
  match o with
  | Continue st | Return _ st | Panic st => st
  end.

Definition pairs (metrics queryTemplates : list string)
  : list (string * string) :=
  flat_map (fun tm => map (pair tm) queryTemplates) metrics.

Definition kindPairs (metrics : list string) (kinds : list TemplateKind)
  : list (string * TemplateKind) :=
  flat_map (fun tm => map (pair tm) kinds) metrics.

(** A query answered with a vector and no error. *)
Definition answered (r : v1.QueryReturn) : bool :=
  match v1.err r, v1.value r with
  | None, model.VectorValue _ => true
  | _, _ => false
  end.

Definition queryAt (now : Time) (e : Event) : Prop :=
  match e with
  | EvQuery _ _ _ ts _ => ts = now
  | EvNow _ => False
  end.

Definition answeredQuery (e : Event) : Prop :=
  match e with
  | EvQuery _ _ _ _ r => answered r = true
  | EvNow _ => False
  end.

Definition recordOk (Format : Time -> string -> string)
  (TimestampFormat : string) (now : Time) (cfgRange : string)
  (k : Z) (r : PodMetric) : Prop :=
  dbhandler.QueryTime r = Format now TimestampFormat /\
  dbhandler.Range r = cfgRange /\
  recordId r = k /\
  dbhandler.InstValue r = 0.

(** Two states that differ in the recorded actions only. *)
Definition sameTable (st1 st2 : State) : Prop :=
  podMetricHashTable st1 = podMetricHashTable st2 /\
  hasher st1 = hasher st2 /\
  length (events st1) = length (events st2).

Definition sameOutcome (o1 o2 : Outcome) : Prop :=
  match o1, o2 with
  | Continue st1, Continue st2 => sameTable st1 st2
  | Return e1 _, Return e2 _ => e1 = e2
  | Panic _, Panic _ => True
  | _, _ => False
  end.

Section RunAsLoop.

Variable Format : Time -> string -> string.
Variable TimestampFormat : string.
Variable Now : nat -> Time.

(** The loop body for a template of the registry, with the composed
    query spelled out. *)
Definition step (cfg : Config) (now : Time) (p : string * TemplateKind)
  (st : State) : Outcome :=
  let q := labelJoin (substituted p.2 p.1 (Range cfg)) in
  let r := v1.Query (PrometheusClient cfg) (length (events st))
             (Context cfg) q now in
  let st1 := {| events := events st ++ [EvQuery p.1 (templateOf p.2) q now r];
                podMetricHashTable := podMetricHashTable st;
                hasher := hasher st |} in
  match v1.err r with
  | Some e => Return (ErrQueryFailed q e) st1
  | None =>
      match v1.value r with
      | model.VectorValue vector =>
          Continue (foldVector Format TimestampFormat now (Range cfg) p.1
                      (templateOf p.2) st1 vector)
      | _ => Return ErrExpectedVector st1
      end
  end.

(** The whole run, as the loop over the (metric, kind) pairs. *)
Definition run (cfg : Config) : Outcome :=
  forEach (step cfg (Now 0%nat))
    (kindPairs targetMetrics (documentedKinds (QueryType cfg)))
    (initState [EvNow (Now 0%nat)]).

(** While the run goes on: the clock was read once, first; every later
    action is a query at that instant, answered with a vector; the
    hasher is reset; the table is the fold of the answers so far. *)
Definition running (cfg : Config) (now : Time) (st : State) : Prop :=
  (exists qs, events st = EvNow now :: qs /\
     Forall (fun e => queryAt now e /\ answeredQuery e) qs) /\
  hasher st = fnv.New32a /\
  podMetricHashTable st =
    fold_left (fileSample Format TimestampFormat now (Range cfg))
              (tagged (inputsOf (events st))) ∅.

(** When the run stops early: it returns an error, and its last action
    is a query that was not answered with a vector. *)
Definition stopped (now : Time) (o : Outcome) : Prop :=
  match o with
  | Return _ st =>
      exists qs e, events st = EvNow now :: qs ++ [e] /\
        Forall (fun e => queryAt now e /\ answeredQuery e) qs /\
        queryAt now e /\ ~ answeredQuery e
  | _ => False
  end.

End RunAsLoop.

(** The record [r] holds, in field [f], the value of a sample among [l]
    that is filed under the key [i] and whose template writes [f]. *)
Definition populatedBy (l : list Tagged) (i : Z) (f : ScalarField)
  (r : PodMetric) : Prop :=
  exists t, t ∈ l /\ taggedId t = i /\ writtenField t.1.2 = Some f /\
            scalar f r = model.Value t.2.

(** The descriptive fields of [r] are those of a sample among [l] that is
    filed under the key [i]. *)
Definition describedBy (l : list Tagged) (i : Z) (r : PodMetric) : Prop :=
  exists t, t ∈ l /\ taggedId t = i /\
    dbhandler.Namespace r = label t.2 "namespace" /\
    dbhandler.Pod r = label t.2 "pod" /\
    dbhandler.Metric r = t.1.1 /\
    dbhandler.LabelApp r = label t.2 "label_app".

(** Every query of the run comes from a (metric, kind) pair of [kp]. *)
Definition eventFrom (kp : list (string * TemplateKind)) (e : Event) : Prop :=
  match e with
  | EvNow _ => True
  | EvQuery tm qt _ _ _ => exists k, qt = templateOf k /\ (tm, k) ∈ kp
  end.

(** ** Concrete runs *)

Definition exFormat (t : Time) (layout : string) : string :=
  if t =? 1000 then layout else EmptyString.

Definition exLayout : string := "2006-01-02 15:04:05".

(** A clock that moves on with every action. *)
Definition exNow (n : nat) : Time := 1000 + Z.of_nat n.

Definition exSample (ns pod app : string) (v : float64) : model.Sample :=
  {| model.Metric :=
       <["namespace" := ns]> (<["pod" := pod]> (<["label_app" := app]> ∅));
     model.Value := v;
     model.Timestamp := 1000 |}.

Definition exReturn (v : list model.Sample) (w : list string)
  : v1.QueryReturn :=
  {| v1.value := model.VectorValue v; v1.warnings := w; v1.err := None |}.

(** Every query returns one sample of the pod [p1]; its value is the
    number of the call. *)
Definition apiOnePod (w : list string) : v1.API :=
  {| v1.Query := fun n _ _ _ =>
       exReturn [exSample "ns" "p1" "app" (Z.of_nat n)] w |}.

(** The second query fails; the others return one sample. *)
Definition apiSecondFails : v1.API :=
  {| v1.Query := fun n _ _ _ =>
       if (n =? 2)%nat
       then {| v1.value := model.NilValue; v1.warnings := [];
               v1.err := Some "connection refused" |}
       else exReturn [exSample "ns" "p1" "app" (Z.of_nat n)] [] |}.

(** The second query returns a scalar instead of a vector. *)
Definition apiSecondScalar : v1.API :=
  {| v1.Query := fun n _ _ _ =>
       if (n =? 2)%nat
       then {| v1.value := model.ScalarValue 5 1000; v1.warnings := [];
               v1.err := None |}
       else exReturn [exSample "ns" "p1" "app" (Z.of_nat n)] [] |}.

(** Two pods whose namespace and name differ and whose formatted
    identities coincide. *)
Definition podAB_C : model.Sample := exSample "a-b" "c" "app" 11.
Definition podA_BC : model.Sample := exSample "a" "b-c" "app" 22.

Definition apiTwoPods : v1.API :=
  {| v1.Query := fun n _ _ _ =>
       if (n =? 1)%nat then exReturn [podAB_C; podA_BC] [] else exReturn [] [] |}.

Definition exConfig (queryType : string) (api : v1.API) : Config :=
  {| Context := Some context.Background; QueryType := queryType;
     Range := "10m"; PrometheusClient := api |}.

Definition exTable (r : Result * list Event) : PodMetricTable :=
  match r.1 with
  | Returned tbl _ => tbl
  | Panicked => []
  end.

(* ===================================================================== *)
(** ** The rest of the package: CSV rendering *)
(* ===================================================================== *)

(** The line feed, as a one-byte string. *)
Definition newline : string := String (ascii_of_nat 10) EmptyString.

(** How often the byte [c] occurs in [s]. *)
Fixpoint countByte (c : ascii) (s : string) : nat :=
  match s with
  | EmptyString => 0%nat
  | String c' rest =>
      ((if Ascii.eqb c' c then 1 else 0) + countByte c rest)%nat
  end.

Section CSV.

(** [strconv.FormatFloat(f, 'e', -1, 64)], of the standard library. *)
Variable FormatFloat_e : float64 -> string.

Definition floatToString (f : float64) : string := FormatFloat_e f.

(** [PodMetric.MarshalCSV]: ten cells, each followed by a comma, and a
    line feed. *)
Definition PodMetric_MarshalCSV (p : PodMetric) : string :=
  dbhandler.Metric p +:+ "," +:+ dbhandler.Range p +:+ "," +:+
  dbhandler.Pod p +:+ "," +:+ dbhandler.Namespace p +:+ "," +:+
  dbhandler.LabelApp p +:+ "," +:+
  floatToString (dbhandler.Q95Value p) +:+ "," +:+
  floatToString (dbhandler.MaxValue p) +:+ "," +:+
  floatToString (dbhandler.MinValue p) +:+ "," +:+
  floatToString (dbhandler.AvgValue p) +:+ "," +:+
  floatToString (dbhandler.InstValue p) +:+ "," +:+ newline.

Definition csvHeader : string :=
  "metric, range, pod, namespace, label-app, quantile-95, max, min, avg, inst"
  +:+ newline.

(** [PodMetricTable.MarshalCSV]: the header, then the line of every
    record, written to one buffer. *)
Definition PodMetricTable_MarshalCSV (pm : PodMetricTable) : string :=
  fold_left (fun buf line => buf +:+ PodMetric_MarshalCSV line) pm csvHeader.

(** The ten cells of a record's line, in the order they are written. *)
Definition csvCells (p : PodMetric) : list string :=
  [dbhandler.Metric p; dbhandler.Range p; dbhandler.Pod p;
   dbhandler.Namespace p; dbhandler.LabelApp p;
   floatToString (dbhandler.Q95Value p); floatToString (dbhandler.MaxValue p);
   floatToString (dbhandler.MinValue p); floatToString (dbhandler.AvgValue p);
   floatToString (dbhandler.InstValue p)].

End CSV.

(* ===================================================================== *)
(** ** The rest of [pkg/top/queries.go]: executing the composed queries *)
(* ===================================================================== *)

Module queries_go_top.

Record QueryResult : Type := {
  Query : string;
  Vector : list model.Sample;
  Warnings : list string
}.

(** What a run does that the outside can see. *)
Inductive Action : Type :=
| ActNow (t : Time)
| ActQuery (ctx : option context.Context) (query : string) (ts : Time)
    (r : v1.QueryReturn).

(** [for _, q := range queries]: the results so far and the actions so
    far are threaded through; an error ends the loop with nil results. *)
Fixpoint forQueries (cfg : Config) (now : Time) (queries : list string)
  (results : list QueryResult) (acts : list Action)
  : (list QueryResult * option error) * list Action :=
  match queries with
  | [] => ((results, None), acts)
  | q :: rest =>
      let r := v1.Query (PrometheusClient cfg) (length acts) (Context cfg)
                 q now in
      let acts := acts ++ [ActQuery (Context cfg) q now r] in
      match v1.err r with
      | Some e => (([], Some (ErrQueryFailed q e)), acts)
      | None =>
          match v1.value r with
          | model.VectorValue v =>
              forQueries cfg now rest
                (results ++ [{| Query := q; Vector := v;
                                Warnings := v1.warnings r |}]) acts
          | _ => (([], Some ErrExpectedVector), acts)
          end
      end
  end.

(** [top]; [None] is a panic of [template.Must]. *)
Definition top (Now : nat -> Time) (cfg : Config)
  : option ((list QueryResult * option error) * list Action) :=
  match queries_go.generateTargetMetricQueries cfg with
  | None => None
  | Some (inr e) => Some (([], Some e), [])
  | Some (inl queries) =>
      (* Must snapshot the current time to normalize the endpoint of
         ranged queries *)
      let now := Now 0%nat in
      Some (forQueries cfg now queries [] [ActNow now])
  end.

Definition defaultRange : string := "10m".

Definition Top (Now : nat -> Time) (cfg : Config)
  : option ((list QueryResult * option error) * list Action) :=
  let cfg :=
    if String.eqb (Range cfg) EmptyString
    then {| Context := Context cfg; QueryType := QueryType cfg;
            Range := defaultRange;
            PrometheusClient := PrometheusClient cfg |}
    else cfg in
  let cfg :=
    match Context cfg with
    | None => {| Context := Some context.Background;
                 QueryType := QueryType cfg; Range := Range cfg;
                 PrometheusClient := PrometheusClient cfg |}
    | Some _ => cfg
    end in
  top Now cfg.

(** The kinds the selector stands for in this form of the package. *)
Definition selectedKinds (selector : string) : list TemplateKind :=
  if String.eqb selector "q" then [Quantile95]
  else if String.eqb selector "a" then [Average]
  else if String.eqb selector "i" then [Instantaneous]
  else [Quantile95; Average; Instantaneous].

(** The label-join transform of this form of the package: the metadata
    selector asks for a non-empty [label_app] too, and a line feed
    follows the query. *)
Definition labelJoin (query : string) : string :=
  "sum by (pod, label_app) (kube_pod_labels{pod!=" +:+ dq +:+ dq +:+
  ", label_app!=" +:+ dq +:+ dq +:+
  "}) * on (pod) group_right(label_app) sum by (pod, namespace, node) (" +:+
  query +:+ ")" +:+ newline.

(** The call a result stems from. *)
Definition resultOf (a : Action) : list QueryResult :=
  match a with
  | ActQuery _ q _ r =>
      match v1.value r with
      | model.VectorValue v =>
          [{| Query := q; Vector := v; Warnings := v1.warnings r |}]
      | _ => []
      end
  | ActNow _ => []
  end.

(** The query of a call. *)
Definition queryOf (a : Action) : list string :=
  match a with
  | ActQuery _ q _ _ => [q]
  | ActNow _ => []
  end.

(** The queries of a configuration: one per (template, metric) pair,
    templates outermost. *)
Definition composed (cfg : Config) : list string :=
  flat_map (fun k => map (fun tm => labelJoin (substituted k tm (Range cfg)))
                         queries_go.targetMetrics)
           (selectedKinds (QueryType cfg)).

(** A call made with the context [ctx] at the instant [now]. *)
Definition callAt (ctx : option context.Context) (now : Time) (a : Action)
  : Prop :=
  match a with
  | ActQuery c _ ts _ => c = ctx /\ ts = now
  | ActNow _ => False
  end.

End queries_go_top.

(* ===================================================================== *)
(** ** Further notions used to state the properties *)
(* ===================================================================== *)

(** The fingerprints of a list of folded samples. *)
Definition fingerprintsOf (l : list Tagged) : gset Z :=
  list_to_set (taggedId <$> l).

(** Samples filed under one key agree on what they write: on the
    descriptive fields, and on the value when their templates write the
    same scalar field. *)
Definition agree (t t' : Tagged) : Prop :=
  label t.2 "namespace" = label t'.2 "namespace" /\
  label t.2 "pod" = label t'.2 "pod" /\
  t.1.1 = t'.1.1 /\
  label t.2 "label_app" = label t'.2 "label_app" /\
  (writtenField t.1.2 = writtenField t'.1.2 ->
   model.Value t.2 = model.Value t'.2).

Definition consistent (l : list Tagged) : Prop :=
  forall t t', t ∈ l -> t' ∈ l -> taggedId t = taggedId t' -> agree t t'.

(** One pod, reported twice in the vector of the first query. *)
Definition apiSamePodTwice : v1.API :=
  {| v1.Query := fun n _ _ _ =>
       if (n =? 1)%nat
       then exReturn [exSample "ns" "p1" "app" 7; exSample "ns" "p1" "app" 9] []
       else exReturn [] [] |}.

(** A sample without labels. *)
Definition noLabels (v : float64) : model.Sample :=
  {| model.Metric := ∅; model.Value := v; model.Timestamp := 1000 |}.

(** Every query returns a sample without labels. *)
Definition apiNoLabels : v1.API :=
  {| v1.Query := fun n _ _ _ => exReturn [noLabels (Z.of_nat n)] [] |}.

(** An interface that answers only when it is given a context. *)
Definition apiNeedsContext : v1.API :=
  {| v1.Query := fun n ctx _ _ =>
       match ctx with
       | Some _ => exReturn [exSample "ns" "p1" "app" (Z.of_nat n)] []
       | None => {| v1.value := model.NilValue; v1.warnings := [];
                    v1.err := Some "nil context" |}
       end |}.

Definition exFormatFloat (f : float64) : string :=
  if f =? 0 then "0e+00" else "1e+00".

(** Runs used as concrete inputs. *)
Definition runDefault : Result * list Event :=
  top exFormat exLayout exNow (exConfig EmptyString (apiOnePod [])).

Definition runQuantile (api : v1.API) : Result * list Event :=
  top exFormat exLayout exNow (exConfig "q" api).



Definition runWith (api : v1.API) : Result * list Event :=
  top exFormat exLayout exNow (exConfig EmptyString api).

(* ===================================================================== *)
(** * Properties *)
(* ===================================================================== *)

(** ** Templates and the switch *)

Example parse_quantile :
  template.Parse quantileOverTimeTemplate =
  Some [template.TextNode "quantile_over_time(.95, ";
        template.FieldNode "Metric"; template.TextNode "[";
        template.FieldNode "Range"; template.TextNode "])"].
Proof. reflexivity. Qed.

Example parse_instant :
  template.Parse instantTemplate = Some [template.FieldNode "Metric"].
Proof. reflexivity. Qed.

(** With the default range every query of the registry carries the
    metadata selector of the label-join transform once. *)
Example default_queries_wrapped_once :
  forallb (fun q => (occurrences q "kube_pod_labels" =? 1)%nat)
    (expectedQueries defaultRange targetMetrics
       [Quantile95; Average; Maximum; Minimum; Instantaneous]) = true.
Proof. vm_compute. reflexivity. Qed.

Example fnv32a_empty :
  fnv.Sum32 (fnv.Write fnv.New32a EmptyString) = 0x811c9dc5.
Proof. reflexivity. Qed.

Example fnv32a_a : fnv.Sum32 (fnv.Write fnv.New32a "a") = 0xe40c292c.
Proof. reflexivity. Qed.

Example fnv32a_foobar :
  fnv.Sum32 (fnv.Write fnv.New32a "foobar") = 0xbf9cf968.
Proof. reflexivity. Qed.

Lemma writtenField_templateOf (k : TemplateKind) :
  writtenField (templateOf k) =
  Some (match k with Instantaneous => FMin | _ => fieldOfKind k end).
Proof. destruct k; reflexivity. Qed.

Lemma setScalar_alter (qt : string) (v : float64) (id : Z)
  (tbl : gmap Z PodMetric) :
  setScalar qt v id tbl =
  match writtenField qt with
  | Some FQ95 => alter (assign.Q95Value v) id tbl
  | Some FAvg => alter (assign.AvgValue v) id tbl
  | Some FMax => alter (assign.MaxValue v) id tbl
  | Some FMin => alter (assign.MinValue v) id tbl
  | _ => tbl
  end.
Proof.
  unfold setScalar, writtenField.
  repeat (match goal with |- context [if ?b then _ else _] => destruct b end;
          try reflexivity).
Qed.

(** ** Assignments overwrite: every field is either set to a constant or
    left as it was *)

Lemma keepsOrSets_id {A} (proj : PodMetric -> A) : keepsOrSets proj (fun p => p).
Proof. right. reflexivity. Qed.

Lemma keepsOrSets_compose {A} (proj : PodMetric -> A) F G :
  keepsOrSets proj F -> keepsOrSets proj G ->
  keepsOrSets proj (fun p => G (F p)).
Proof.
  intros HF [[c Hc] | HG].
  - left. exists c. intros p. apply Hc.
  - destruct HF as [[c Hc] | HF].
    + left. exists c. intros p. rewrite HG. apply Hc.
    + right. intros p. rewrite HG. apply HF.
Qed.

Lemma keepsOrSets_idem {A} (proj : PodMetric -> A) F p :
  keepsOrSets proj F -> proj (F (F p)) = proj (F p).
Proof.
  intros [[c Hc] | HF].
  - rewrite !Hc. reflexivity.
  - apply HF.
Qed.

Lemma PodMetric_ext (p q : PodMetric) :
  dbhandler.Metric p = dbhandler.Metric q ->
  dbhandler.Range p = dbhandler.Range q ->
  dbhandler.Pod p = dbhandler.Pod q ->
  dbhandler.Namespace p = dbhandler.Namespace q ->
  dbhandler.LabelApp p = dbhandler.LabelApp q ->
  dbhandler.QueryTime p = dbhandler.QueryTime q ->
  dbhandler.Q95Value p = dbhandler.Q95Value q ->
  dbhandler.MaxValue p = dbhandler.MaxValue q ->
  dbhandler.MinValue p = dbhandler.MinValue q ->
  dbhandler.AvgValue p = dbhandler.AvgValue q ->
  dbhandler.InstValue p = dbhandler.InstValue q ->
  p = q.
Proof. destruct p, q; simpl; intros; subst; reflexivity. Qed.

Lemma keepsOrSets_ext {A} (proj : PodMetric -> A) F G :
  (forall p, F p = G p) -> keepsOrSets proj F -> keepsOrSets proj G.
Proof.
  intros E [[c Hc] | HF].
  - left. exists c. intros p. rewrite <- E. apply Hc.
  - right. intros p. rewrite <- E. apply HF.
Qed.

Lemma Overwrite_ext F G :
  (forall p, F p = G p) -> Overwrite F -> Overwrite G.
Proof. intros E []. split; apply (keepsOrSets_ext _ F G E); assumption. Qed.

Lemma Overwrite_id : Overwrite (fun p => p).
Proof. split; apply keepsOrSets_id. Qed.

Lemma Overwrite_compose F G :
  Overwrite F -> Overwrite G -> Overwrite (fun p => G (F p)).
Proof. intros [] []. split; apply keepsOrSets_compose; assumption. Qed.

Lemma Overwrite_idem F p : Overwrite F -> F (F p) = F p.
Proof.
  intros []. apply PodMetric_ext; apply keepsOrSets_idem; assumption.
Qed.

Ltac overwrite_field :=
  first [ right; intros ?; reflexivity
        | left; eexists; intros ?; simpl; reflexivity ].

Lemma Overwrite_sampleUpdate Format TimestampFormat now cfgRange t :
  Overwrite (sampleUpdate Format TimestampFormat now cfgRange t).
Proof.
  destruct t as [[tm qt] s]. unfold sampleUpdate.
  destruct (writtenField qt) as [[]|]; split; overwrite_field.
Qed.

Lemma Overwrite_applyAll Format TimestampFormat now cfgRange l :
  Overwrite (applyAll Format TimestampFormat now cfgRange l).
Proof.
  unfold applyAll. induction l as [|t l IH] using rev_ind.
  - apply Overwrite_id.
  - eapply Overwrite_ext;
      [| exact (Overwrite_compose _ _ IH
                  (Overwrite_sampleUpdate Format TimestampFormat now cfgRange t))].
    intros p. rewrite fold_left_app. reflexivity.
Qed.

(** ** The fold, one record at a time *)

Section AggregatorFacts.

Variable Format : Time -> string -> string.
Variable TimestampFormat : string.
Variable now : Time.
Variable cfgRange : string.

Local Abbreviation foldSample' := (foldSample Format TimestampFormat now cfgRange).
Local Abbreviation foldVector' := (foldVector Format TimestampFormat now cfgRange).
Local Abbreviation aggregate' := (aggregate Format TimestampFormat now cfgRange).
Local Abbreviation fileSample' := (fileSample Format TimestampFormat now cfgRange).
Local Abbreviation sampleUpdate' := (sampleUpdate Format TimestampFormat now cfgRange).
Local Abbreviation applyAll' := (applyAll Format TimestampFormat now cfgRange).

Lemma foldSample_events tm qt st s :
  events (foldSample' tm qt st s) = events st.
Proof. reflexivity. Qed.

Lemma foldSample_hasher tm qt st s :
  hasher (foldSample' tm qt st s) = fnv.New32a.
Proof. reflexivity. Qed.

Lemma foldSample_table tm qt st s :
  hasher st = fnv.New32a ->
  podMetricHashTable (foldSample' tm qt st s) =
  fileSample' (podMetricHashTable st) (tm, qt, s).
Proof.
  intros Hh. unfold foldSample, fileSample, taggedId, sampleId, fingerprint.
  rewrite Hh. cbn [podMetricHashTable fst snd].
  set (id := fnv.Sum32 _). set (tbl := podMetricHashTable st).
  set (p0 := default new_PodMetric (tbl !! id)).
  assert (E : match tbl !! id with
              | Some _ => tbl
              | None => <[id:=new_PodMetric]> tbl
              end = <[id:=p0]> tbl).
  { subst p0. destruct (tbl !! id) as [p|] eqn:Hl; simpl.
    - symmetry. apply insert_id. exact Hl.
    - reflexivity. }
  rewrite E, !alter_insert_eq, setScalar_alter.
  unfold sampleUpdate.
  destruct (writtenField qt) as [[]|]; rewrite ?alter_insert_eq; reflexivity.
Qed.

Lemma foldVector_events tm qt v st :
  events (foldVector' tm qt st v) = events st.
Proof.
  unfold foldVector. revert st.
  induction v as [|s v IH]; intros st; simpl; [reflexivity|].
  rewrite IH. reflexivity.
Qed.

Lemma foldVector_hasher tm qt v st :
  hasher st = fnv.New32a -> hasher (foldVector' tm qt st v) = fnv.New32a.
Proof.
  unfold foldVector. revert st.
  induction v as [|s v IH]; intros st Hh; simpl; [exact Hh|].
  apply IH. reflexivity.
Qed.

Lemma foldVector_table tm qt v st :
  hasher st = fnv.New32a ->
  podMetricHashTable (foldVector' tm qt st v) =
  fold_left fileSample' (map (fun s => (tm, qt, s)) v) (podMetricHashTable st).
Proof.
  unfold foldVector. revert st.
  induction v as [|s v IH]; intros st Hh; simpl; [reflexivity|].
  rewrite IH by reflexivity. rewrite foldSample_table by exact Hh.
  reflexivity.
Qed.

Lemma aggregate_events inputs st :
  events (aggregate' inputs st) = events st.
Proof.
  unfold aggregate. revert st.
  induction inputs as [|i l IH]; intros st; simpl; [reflexivity|].
  rewrite IH. apply foldVector_events.
Qed.

Lemma aggregate_hasher inputs st :
  hasher st = fnv.New32a -> hasher (aggregate' inputs st) = fnv.New32a.
Proof.
  unfold aggregate. revert st.
  induction inputs as [|i l IH]; intros st Hh; simpl; [exact Hh|].
  apply IH. apply foldVector_hasher. exact Hh.
Qed.

Lemma aggregate_table inputs st :
  hasher st = fnv.New32a ->
  podMetricHashTable (aggregate' inputs st) =
  fold_left fileSample' (tagged inputs) (podMetricHashTable st).
Proof.
  unfold aggregate, tagged. revert st.
  induction inputs as [|i l IH]; intros st Hh; simpl; [reflexivity|].
  rewrite IH by (apply foldVector_hasher; exact Hh).
  rewrite fold_left_app, foldVector_table by exact Hh.
  reflexivity.
Qed.

Lemma aggregate_app l1 l2 st :
  aggregate' (l1 ++ l2) st = aggregate' l2 (aggregate' l1 st).
Proof. unfold aggregate. apply fold_left_app. Qed.

Lemma filedUnder_cons_eq t l :
  filedUnder (taggedId t) (t :: l) = t :: filedUnder (taggedId t) l.
Proof. unfold filedUnder. rewrite filter_cons_True; reflexivity. Qed.

Lemma filedUnder_cons_ne i t l :
  taggedId t <> i -> filedUnder i (t :: l) = filedUnder i l.
Proof. intros H. unfold filedUnder. rewrite filter_cons_False; done. Qed.

(** The record under a key after a fold: untouched when no sample is
    filed under the key, and otherwise the updates of the samples filed
    under it, in order, applied to what was there (or to a new record). *)
Lemma fileAll_lookup (l : list Tagged) (tbl : gmap Z PodMetric) (i : Z) :
  fold_left fileSample' l tbl !! i =
  match filedUnder i l with
  | [] => tbl !! i
  | us => Some (applyAll' us (default new_PodMetric (tbl !! i)))
  end.
Proof.
  revert tbl. induction l as [|t l IH]; intros tbl; [reflexivity|].
  simpl fold_left. rewrite IH.
  destruct (decide (taggedId t = i)) as [<-|Hne].
  - rewrite filedUnder_cons_eq. unfold fileSample at 1 2.
    rewrite lookup_insert_eq. simpl.
    destruct (filedUnder (taggedId t) l); reflexivity.
  - rewrite (filedUnder_cons_ne i t l Hne). unfold fileSample at 1 2.
    rewrite lookup_insert_ne by exact Hne. reflexivity.
Qed.

Lemma applyAll_idem us p : applyAll' us (applyAll' us p) = applyAll' us p.
Proof. apply Overwrite_idem, Overwrite_applyAll. Qed.

Lemma fileAll_idem (l : list Tagged) (tbl : gmap Z PodMetric) :
  fold_left fileSample' l (fold_left fileSample' l tbl) =
  fold_left fileSample' l tbl.
Proof.
  apply map_eq. intros i. rewrite fileAll_lookup.
  rewrite (fileAll_lookup l tbl i).
  destruct (filedUnder i l) as [|u us]; [reflexivity|].
  cbn [from_option id]. rewrite applyAll_idem. reflexivity.
Qed.

End AggregatorFacts.

(** ** Loops *)

Lemma forEach_app {A} (body : A -> State -> Outcome) l1 l2 st :
  forEach body (l1 ++ l2) st =
  match forEach body l1 st with
  | Continue st' => forEach body l2 st'
  | stop => stop
  end.
Proof.
  revert st. induction l1 as [|a l1 IH]; intros st; simpl; [reflexivity|].
  destruct (body a st); [apply IH | reflexivity | reflexivity].
Qed.

Lemma forEach_map {A B} (f : A -> B) (body : B -> State -> Outcome) l st :
  forEach body (map f l) st = forEach (fun a => body (f a)) l st.
Proof.
  revert st. induction l as [|a l IH]; intros st; simpl; [reflexivity|].
  destruct (body (f a) st); [apply IH | reflexivity | reflexivity].
Qed.

(** The two nested loops visit the (metric, template) pairs in order. *)
Lemma forEach_nested (body : string -> string -> State -> Outcome)
  (metrics queryTemplates : list string) (st : State) :
  forEach (fun tm => forEach (body tm) queryTemplates) metrics st =
  forEach (fun p => body p.1 p.2) (pairs metrics queryTemplates) st.
Proof.
  unfold pairs. revert st.
  induction metrics as [|tm l IH]; intros st; simpl; [reflexivity|].
  rewrite forEach_app, forEach_map. simpl.
  destruct (forEach (body tm) queryTemplates st); [apply IH | reflexivity | reflexivity].
Qed.

(** Invariants of a loop with early exit: [P] holds of the state while
    the loop runs, [Q] of the way it stops. *)
Lemma forEach_inv {A} (P : State -> Prop) (Q : Outcome -> Prop)
  (body : A -> State -> Outcome) (l : list A) (st : State) :
  P st ->
  (forall a st, a ∈ l -> P st ->
     match body a st with Continue st' => P st' | o => Q o end) ->
  match forEach body l st with Continue st' => P st' | o => Q o end.
Proof.
  revert st. induction l as [|a l IH]; intros st HP Hbody; simpl; [exact HP|].
  pose proof (Hbody a st (list_elem_of_here a l) HP) as Ha.
  destruct (body a st) as [st'| |]; try exact Ha.
  apply IH; [exact Ha|].
  intros b st0 Hb. apply Hbody. apply list_elem_of_further. exact Hb.
Qed.

(** ** Composition *)

Lemma Parse_appLabelQuery :
  template.Parse appLabelQuery =
  Some [template.TextNode
          ("sum by (pod, label_app) (kube_pod_labels{pod!=" +:+ dq +:+ dq +:+
           "}) * on (pod) group_right(label_app) sum by (pod, namespace, node) (");
        template.FieldNode "Query"; template.TextNode ")"].
Proof. reflexivity. Qed.

Lemma append_empty_r (s : string) : String.append s EmptyString = s.
Proof.
  induction s as [|c s IH]; [reflexivity|].
  change (String c (String.append s EmptyString) = String c s).
  rewrite IH. reflexivity.
Qed.

Lemma composeQuery_templateOf (tmpl : template.Template) (k : TemplateKind)
  (range tm : string) :
  template.Parse appLabelQuery = Some tmpl ->
  composeQuery tmpl range tm (templateOf k) =
  ComposedQuery (labelJoin (substituted k tm range)).
Proof.
  rewrite Parse_appLabelQuery. intros [= <-].
  destruct k; try reflexivity.
  unfold composeQuery, templateOf. rewrite parse_instant.
  cbn -[String.append labelJoin]. rewrite append_empty_r. reflexivity.
Qed.

Lemma selectQueryTemplates_documented (q : string) :
  selectQueryTemplates q = (map templateOf (documentedKinds q), None).
Proof.
  unfold selectQueryTemplates, documentedKinds.
  destruct (String.eqb q "q"); [reflexivity|].
  destruct (String.eqb q "a"); [reflexivity|].
  destruct (String.eqb q "i"); reflexivity.
Qed.

Lemma templateOf_inj (k1 k2 : TemplateKind) :
  templateOf k1 = templateOf k2 -> k1 = k2.
Proof. destruct k1, k2; intros H; first [reflexivity | discriminate H]. Qed.

(** ** The run as one loop over (metric, kind) pairs *)

Lemma pairs_templateOf metrics kinds :
  pairs metrics (map templateOf kinds) =
  map (fun p => (p.1, templateOf p.2)) (kindPairs metrics kinds).
Proof.
  unfold pairs, kindPairs.
  induction metrics as [|tm l IH]; simpl; [reflexivity|].
  rewrite map_app, IH, !map_map. reflexivity.
Qed.

Lemma expectedQueries_kindPairs range metrics kinds :
  expectedQueries range metrics kinds =
  map (fun p => labelJoin (substituted p.2 p.1 range)) (kindPairs metrics kinds).
Proof.
  unfold expectedQueries, kindPairs.
  induction metrics as [|tm l IH]; simpl; [reflexivity|].
  rewrite map_app, IH, !map_map. reflexivity.
Qed.

Lemma length_kindPairs metrics kinds :
  length (kindPairs metrics kinds) = (length metrics * length kinds)%nat.
Proof.
  unfold kindPairs. induction metrics as [|tm l IH]; simpl; [reflexivity|].
  rewrite length_app, length_map, IH. reflexivity.
Qed.

Lemma elem_of_kindPairs tm k metrics kinds :
  (tm, k) ∈ kindPairs metrics kinds <-> tm ∈ metrics /\ k ∈ kinds.
Proof.
  unfold kindPairs. rewrite list_elem_of_In, in_flat_map. split.
  - intros [tm' [Hin Hp]]. apply in_map_iff in Hp as [k' [[= -> ->] Hk]].
    rewrite !list_elem_of_In. split; assumption.
  - rewrite !list_elem_of_In. intros [Htm Hk]. exists tm. split; [exact Htm|].
    apply in_map. exact Hk.
Qed.

Section RunFacts.

Variable Format : Time -> string -> string.
Variable TimestampFormat : string.
Variable Now : nat -> Time.

Local Abbreviation top' := (top Format TimestampFormat Now).
Local Abbreviation foldVector' := (foldVector Format TimestampFormat).
Local Abbreviation queryAndFold' := (queryAndFold Format TimestampFormat).
Local Abbreviation step' := (step Format TimestampFormat).
Local Abbreviation run' := (run Format TimestampFormat Now).

Lemma queryAndFold_step cfg now tmpl p st :
  template.Parse appLabelQuery = Some tmpl ->
  queryAndFold' cfg now tmpl p.1 (templateOf p.2) st = step' cfg now p st.
Proof.
  intros Ht. unfold queryAndFold, step.
  rewrite (composeQuery_templateOf tmpl p.2 (Range cfg) p.1 Ht). reflexivity.
Qed.

Lemma top_run cfg :
  top' cfg =
  match run' cfg with
  | Continue st =>
      (Returned (tableRecords (podMetricHashTable st)) None, events st)
  | Return e st => (Returned [] (Some e), events st)
  | Panic st => (Panicked, events st)
  end.
Proof.
  unfold top, run. rewrite selectQueryTemplates_documented.
  destruct (template.Parse appLabelQuery) as [tmpl|] eqn:Ht;
    [|rewrite Parse_appLabelQuery in Ht; discriminate Ht].
  unfold runQueries. rewrite forEach_nested, pairs_templateOf, forEach_map.
  fold (initState [EvNow (Now 0%nat)]).
  assert (E : forall l st,
    forEach (fun a : string * TemplateKind =>
       queryAndFold' cfg (Now 0%nat) tmpl (a.1, templateOf a.2).1
         (a.1, templateOf a.2).2) l st
    = forEach (step' cfg (Now 0%nat)) l st).
  { induction l as [|a l IH]; intros st; simpl; [reflexivity|].
    rewrite (queryAndFold_step cfg _ tmpl a st Ht).
    destruct (step' cfg (Now 0%nat) a st); [apply IH | reflexivity | reflexivity]. }
  rewrite E. reflexivity.
Qed.

End RunFacts.

(** ** Invariants of the run *)

Lemma inputsOf_app evs1 evs2 :
  inputsOf (evs1 ++ evs2) = inputsOf evs1 ++ inputsOf evs2.
Proof. unfold inputsOf. apply flat_map_app. Qed.

Lemma queriesOf_app evs1 evs2 :
  queriesOf (evs1 ++ evs2) = queriesOf evs1 ++ queriesOf evs2.
Proof. unfold queriesOf. apply flat_map_app. Qed.

Lemma tagged_app l1 l2 : tagged (l1 ++ l2) = tagged l1 ++ tagged l2.
Proof. unfold tagged. apply flat_map_app. Qed.

Lemma forEach_rel {A} (body1 body2 : A -> State -> Outcome) (l : list A)
  (st1 st2 : State) :
  sameTable st1 st2 ->
  (forall a s1 s2, sameTable s1 s2 -> sameOutcome (body1 a s1) (body2 a s2)) ->
  sameOutcome (forEach body1 l st1) (forEach body2 l st2).
Proof.
  revert st1 st2. induction l as [|a l IH]; intros st1 st2 HR Hbody; simpl.
  - exact HR.
  - pose proof (Hbody a st1 st2 HR) as Ha.
    destruct (body1 a st1), (body2 a st2); simpl in Ha; try contradiction;
      try exact Ha.
    apply IH; assumption.
Qed.

Section RunInvariants.

Variable Format : Time -> string -> string.
Variable TimestampFormat : string.
Variable Now : nat -> Time.

Local Abbreviation top' := (top Format TimestampFormat Now).
Local Abbreviation run' := (run Format TimestampFormat Now).
Local Abbreviation step' := (step Format TimestampFormat).
Local Abbreviation foldSample' := (foldSample Format TimestampFormat).
Local Abbreviation foldVector' := (foldVector Format TimestampFormat).
Local Abbreviation fileSample' := (fileSample Format TimestampFormat).
Local Abbreviation sampleUpdate' := (sampleUpdate Format TimestampFormat).
Local Abbreviation recordOk' := (recordOk Format TimestampFormat).
Local Abbreviation running' := (running Format TimestampFormat).

Lemma step_inv cfg now p st :
  running' cfg now st ->
  match step' cfg now p st with
  | Continue st' => running' cfg now st'
  | o => stopped now o
  end.
Proof.
  intros [[qs [Hev Hqs]] [Hh Ht]]. unfold step.
  set (q := labelJoin _). set (r := v1.Query _ _ _ _ _).
  set (ev := EvQuery p.1 (templateOf p.2) q now r).
  destruct (v1.err r) as [e|] eqn:He.
  - simpl. exists qs, ev. rewrite Hev. repeat split; try assumption.
    simpl. unfold answered. rewrite He. discriminate.
  - destruct (v1.value r) as [| | |vector|] eqn:Hv;
      try (simpl; exists qs, ev; rewrite Hev; repeat split; try assumption;
           simpl; unfold answered; rewrite He, Hv; discriminate).
    split; [|split].
    + exists (qs ++ [ev]). rewrite foldVector_events. simpl. rewrite Hev.
      split; [reflexivity|]. apply Forall_app. split; [exact Hqs|].
      constructor; [|constructor]. split; [reflexivity|].
      simpl. unfold answered. rewrite He, Hv. reflexivity.
    + apply foldVector_hasher. exact Hh.
    + rewrite foldVector_table by exact Hh.
      rewrite foldVector_events. simpl events. simpl podMetricHashTable.
      rewrite inputsOf_app, tagged_app, fold_left_app, <- Ht.
      simpl. rewrite He, Hv. simpl. rewrite app_nil_r. reflexivity.
Qed.

Lemma running_init cfg now : running' cfg now (initState [EvNow now]).
Proof.
  split; [|split]; try reflexivity.
  exists []. split; [reflexivity | constructor].
Qed.

Lemma run_inv cfg :
  match run' cfg with
  | Continue st => running' cfg (Now 0%nat) st
  | o => stopped (Now 0%nat) o
  end.
Proof.
  unfold run. apply forEach_inv; [apply running_init|].
  intros p st _ Hst. apply step_inv. exact Hst.
Qed.

(** ** Records of the table *)

Lemma sampleUpdate_ok now cfgRange t p :
  dbhandler.InstValue p = 0 ->
  recordOk' now cfgRange (taggedId t) (sampleUpdate' now cfgRange t p).
Proof.
  intros Hp. destruct t as [[tm qt] s]. unfold recordOk, sampleUpdate.
  destruct (writtenField qt) as [[]|]; repeat split; try exact Hp.
Qed.

Lemma fileAll_ok now cfgRange (l : list Tagged) (tbl : gmap Z PodMetric) :
  (forall k r, tbl !! k = Some r -> recordOk' now cfgRange k r) ->
  forall k r, fold_left (fileSample' now cfgRange) l tbl !! k = Some r ->
              recordOk' now cfgRange k r.
Proof.
  revert tbl. induction l as [|t l IH]; intros tbl Htbl; [exact Htbl|].
  simpl. apply IH. intros k r. unfold fileSample.
  destruct (decide (taggedId t = k)) as [<-|Hne].
  - rewrite lookup_insert_eq. intros [= <-]. apply sampleUpdate_ok.
    destruct (tbl !! taggedId t) as [p|] eqn:Hl; simpl; [|reflexivity].
    apply (Htbl _ _ Hl).
  - rewrite lookup_insert_ne by exact Hne. apply Htbl.
Qed.

Lemma run_records_ok cfg st :
  run' cfg = Continue st ->
  forall k r, podMetricHashTable st !! k = Some r ->
              recordOk' (Now 0%nat) (Range cfg) k r.
Proof.
  intros Hrun. pose proof (run_inv cfg) as Hinv. rewrite Hrun in Hinv.
  destruct Hinv as [_ [_ Ht]]. rewrite Ht.
  apply fileAll_ok. intros k r. rewrite lookup_empty. discriminate.
Qed.

Lemma elem_of_tableRecords (tbl : gmap Z PodMetric) (r : PodMetric) :
  r ∈ tableRecords tbl <-> exists k, tbl !! k = Some r.
Proof.
  unfold tableRecords. rewrite list_elem_of_fmap. split.
  - intros [[k r'] [-> Hin]]. exists k. apply elem_of_map_to_list. exact Hin.
  - intros [k Hk]. exists (k, r). split; [reflexivity|].
    apply elem_of_map_to_list. exact Hk.
Qed.

End RunInvariants.

(** ** The Template Registry *)

(** C4. For every selector string [selectQueryTemplates] returns no
    error and a non-empty list of templates, namely the templates of the
    documented kinds: the quantile selector gives the 95th-percentile
    template, the average selector the average template, the instant
    selector the instantaneous template, and every other string (the
    empty one included) the four templates quantile, average, maximum,
    minimum, among which the instantaneous template does not occur. *)
Theorem selectQueryTemplates_registry (q : string) :
  (selectQueryTemplates q).2 = None /\
  (selectQueryTemplates q).1 <> [] /\
  (selectQueryTemplates q).1 = map templateOf (documentedKinds q) /\
  (selectQueryTemplates "q").1 = [quantileOverTimeTemplate] /\
  (selectQueryTemplates "a").1 = [avgOverTimeTemplate] /\
  (selectQueryTemplates "i").1 = [instantTemplate] /\
  (selectQueryTemplates EmptyString).1 =
    [quantileOverTimeTemplate; avgOverTimeTemplate;
     maxOverTimeTemplate; minOverTimeTemplate] /\
  (q ∈ ["q"; "a"; "i"] \/
   (selectQueryTemplates q).1 =
     [quantileOverTimeTemplate; avgOverTimeTemplate;
      maxOverTimeTemplate; minOverTimeTemplate] /\
   instantTemplate ∉ (selectQueryTemplates q).1).
Proof.
  rewrite selectQueryTemplates_documented. cbn [fst snd].
  repeat split; try reflexivity.
  - unfold documentedKinds.
    destruct (String.eqb q "q"); [discriminate|].
    destruct (String.eqb q "a"); [discriminate|].
    destruct (String.eqb q "i"); discriminate.
  - unfold documentedKinds.
    destruct (String.eqb_spec q "q") as [->|_]; [left; set_solver|].
    destruct (String.eqb_spec q "a") as [->|_]; [left; set_solver|].
    destruct (String.eqb_spec q "i") as [->|_]; [left; set_solver|].
    right. split; [reflexivity|].
    intros Hin. repeat (apply elem_of_cons in Hin as [Hin|Hin]; [discriminate Hin|]).
    inversion Hin.
Qed.

Section RunClaims.

Variable Format : Time -> string -> string.
Variable TimestampFormat : string.
Variable Now : nat -> Time.

Local Abbreviation top' := (top Format TimestampFormat Now).
Local Abbreviation run' := (run Format TimestampFormat Now).
Local Abbreviation step' := (step Format TimestampFormat).
Local Abbreviation foldSample' := (foldSample Format TimestampFormat).
Local Abbreviation foldVector' := (foldVector Format TimestampFormat).

(** ** The Query Composer *)

Lemma step_queries cfg now (kp : list (string * TemplateKind)) (st : State) :
  let o := forEach (step' cfg now) kp st in
  let all := map (fun p => labelJoin (substituted p.2 p.1 (Range cfg))) kp in
  exists done,
    queriesOf (events (stateOf o)) = queriesOf (events st) ++ done /\
    done `prefix_of` all /\
    match o with Continue _ => done = all | Return _ _ => True | Panic _ => False end.
Proof.
  revert st. induction kp as [|p kp IH]; intros st; simpl.
  - exists []. rewrite app_nil_r. repeat split. apply prefix_nil.
  - set (q := labelJoin (substituted p.2 p.1 (Range cfg))).
    assert (Hstep : queriesOf (events (stateOf (step' cfg now p st))) =
                    queriesOf (events st) ++ [q] /\
                    match step' cfg now p st with Panic _ => False | _ => True end).
    { unfold step. fold q.
      destruct (v1.err _); [simpl; rewrite queriesOf_app; split; reflexivity|].
      destruct (v1.value _); simpl; rewrite ?foldVector_events; simpl;
        rewrite queriesOf_app; split; reflexivity. }
    destruct Hstep as [Hq Hnp].
    destruct (step' cfg now p st) as [st'|e st'|st'] eqn:Hs; simpl in Hq.
    + destruct (IH st') as [done [Hd [Hpre Hall]]]. simpl in Hd, Hall.
      exists (q :: done). rewrite Hd, Hq, <- app_assoc. simpl.
      split; [reflexivity|]. split; [apply prefix_cons; exact Hpre|].
      destruct (forEach (step' cfg now) kp st');
        [rewrite Hall; reflexivity | exact I | exact Hall].
    + exists [q]. simpl. split; [exact Hq|]. split; [|exact I].
      apply prefix_cons, prefix_nil.
    + contradiction.
Qed.

Lemma run_error_kind cfg :
  match run' cfg with
  | Continue _ => True
  | Return ErrExpectedVector _ => True
  | Return (ErrQueryFailed q _) _ =>
      q ∈ expectedQueries (Range cfg) targetMetrics
            (documentedKinds (QueryType cfg))
  | _ => False
  end.
Proof.
  unfold run.
  set (kp := kindPairs targetMetrics (documentedKinds (QueryType cfg))).
  apply (forEach_inv (fun _ => True)
    (fun o => match o with
              | Return ErrExpectedVector _ => True
              | Return (ErrQueryFailed q _) _ =>
                  q ∈ expectedQueries (Range cfg) targetMetrics
                        (documentedKinds (QueryType cfg))
              | _ => False
              end)
    (step' cfg (Now 0%nat)) kp (initState [EvNow (Now 0%nat)]) I).
  intros p st Hp _. unfold step.
  destruct (v1.err _).
  - rewrite expectedQueries_kindPairs. apply list_elem_of_fmap.
    exists p. split; [reflexivity | exact Hp].
  - destruct (v1.value _); exact I.
Qed.

Lemma composeQuery_selected (range : string) :
  exists tmpl, template.Parse appLabelQuery = Some tmpl /\
    forall tm k, composeQuery tmpl range tm (templateOf k) =
                 ComposedQuery (labelJoin (substituted k tm range)).
Proof.
  eexists. split; [apply Parse_appLabelQuery|].
  intros tm k. apply composeQuery_templateOf, Parse_appLabelQuery.
Qed.

Lemma run_stopped_last cfg e st :
  run' cfg = Return e st ->
  exists evs tm qt q ts r,
    events st = evs ++ [EvQuery tm qt q ts r] /\ answered r = false.
Proof.
  intros Hrun. pose proof (run_inv Format TimestampFormat Now cfg) as Hinv.
  rewrite Hrun in Hinv. destruct Hinv as [qs [ev [Hev [_ [Hat Hna]]]]].
  destruct ev as [|tm qt q ts r]; [contradiction|].
  exists (EvNow (Now 0%nat) :: qs), tm, qt, q, ts, r.
  split; [exact Hev|]. simpl in Hna. destruct (answered r); congruence.
Qed.

(** C5 (amended). Composing a query never fails and never panics: for
    every target metric and selected template it gives the label-join
    transform applied once to the template with the metric name and the
    configured range substituted.  A run composes its queries one at a
    time, each just before it is executed, in the order of the N*K
    (metric, kind) pairs: the queries of a run are the first of these;
    they are all N*K when the run returns without an error; and when the
    run returns an error, the error is that of a query and the last
    query composed is the one that was not answered with a vector. *)
Theorem top_composes_queries_until_failure (cfg : Config) :
  let kinds := documentedKinds (QueryType cfg) in
  let expected := expectedQueries (Range cfg) targetMetrics kinds in
  length expected =
    (length targetMetrics * length (selectQueryTemplates (QueryType cfg)).1)%nat /\
  (forall q, q ∈ expected <->
     exists tm k, tm ∈ targetMetrics /\ k ∈ kinds /\
       q = labelJoin (substituted k tm (Range cfg))) /\
  (exists tmpl, template.Parse appLabelQuery = Some tmpl /\
     forall tm k, composeQuery tmpl (Range cfg) tm (templateOf k) =
                  ComposedQuery (labelJoin (substituted k tm (Range cfg)))) /\
  queriesOf (top' cfg).2 `prefix_of` expected /\
  match (top' cfg).1 with
  | Returned _ None => queriesOf (top' cfg).2 = expected
  | Returned tbl (Some e) =>
      tbl = [] /\
      (e = ErrExpectedVector \/ exists q cause, e = ErrQueryFailed q cause) /\
      exists evs tm qt q ts r,
        (top' cfg).2 = evs ++ [EvQuery tm qt q ts r] /\ answered r = false
  | Panicked => True
  end.
Proof.
  intros kinds expected. subst expected.
  split.
  { rewrite expectedQueries_kindPairs, selectQueryTemplates_documented.
    cbn [fst]. rewrite !length_map, length_kindPairs. reflexivity. }
  split.
  { intros q. rewrite expectedQueries_kindPairs, list_elem_of_fmap. split.
    - intros [[tm k] [-> Hin]]. apply elem_of_kindPairs in Hin as [Htm Hk].
      exists tm, k. repeat split; assumption.
    - intros [tm [k [Htm [Hk ->]]]]. exists (tm, k). split; [reflexivity|].
      apply elem_of_kindPairs. split; assumption. }
  split; [apply composeQuery_selected|].
  rewrite top_run.
  pose proof (run_error_kind cfg) as Hkind.
  pose proof (run_stopped_last cfg) as Hlast.
  unfold run in *. fold kinds in Hkind, Hlast |- *.
  rewrite expectedQueries_kindPairs.
  destruct (step_queries cfg (Now 0%nat) (kindPairs targetMetrics kinds)
              (initState [EvNow (Now 0%nat)])) as [done [Hd [Hpre Hall]]].
  simpl in Hd, Hall.
  destruct (forEach _ _ _) as [st|e st|st]; simpl in Hd |- *; rewrite Hd.
  - split; [exact Hpre|]. rewrite Hall. reflexivity.
  - split; [exact Hpre|]. split; [reflexivity|]. split.
    + destruct e; try contradiction; [right; eauto | left; reflexivity].
    + apply (Hlast e st eq_refl).
  - contradiction.
Qed.

(** ** The Metric Collector *)

(** C6. When the query interface returns an error, or a value that is
    not a vector, for any query of a run, [top] returns an error and no
    records: the table it returns is empty, whatever the earlier queries
    returned. *)
Theorem top_fails_without_records (cfg : Config) (tm qt q : string)
  (ts : Time) (r : v1.QueryReturn) :
  EvQuery tm qt q ts r ∈ (top' cfg).2 ->
  (v1.err r <> None \/ forall v, v1.value r <> model.VectorValue v) ->
  exists e, (top' cfg).1 = Returned [] (Some e).
Proof.
  intros Hin Hbad. rewrite top_run in Hin |- *.
  pose proof (run_inv Format TimestampFormat Now cfg) as Hinv.
  destruct (run' cfg) as [st|e st|st]; simpl in *.
  - exfalso. destruct Hinv as [[qs [Hev Hqs]] _]. rewrite Hev in Hin.
    apply elem_of_cons in Hin as [Hin|Hin]; [discriminate Hin|].
    rewrite Forall_forall in Hqs. apply Hqs in Hin as [_ Ha].
    simpl in Ha. unfold answered in Ha.
    destruct (v1.err r); [discriminate Ha|].
    destruct Hbad as [Hbad|Hbad]; [apply Hbad; reflexivity|].
    destruct (v1.value r) eqn:Hv; try discriminate Ha.
    eapply Hbad. reflexivity.
  - exists e. reflexivity.
  - contradiction.
Qed.

(** C7. In a run the clock is read once, as the first action; every
    query of the run, answered or not, is evaluated at the instant read
    then; and the timestamp field of every record returned is that
    instant, formatted. *)
Theorem top_single_timestamp (cfg : Config) :
  exists qs,
    (top' cfg).2 = EvNow (Now 0%nat) :: qs /\
    Forall (queryAt (Now 0%nat)) qs /\
    (forall tbl e p, (top' cfg).1 = Returned tbl e -> p ∈ tbl ->
       dbhandler.QueryTime p = Format (Now 0%nat) TimestampFormat).
Proof.
  rewrite top_run.
  pose proof (run_inv Format TimestampFormat Now cfg) as Hinv.
  pose proof (run_records_ok Format TimestampFormat Now cfg) as Hok.
  destruct (run' cfg) as [st|e st|st]; simpl in *.
  - destruct Hinv as [[qs [Hev Hqs]] _]. exists qs.
    split; [exact Hev|]. split.
    + eapply Forall_impl; [exact Hqs|]. intros e [H _]. exact H.
    + intros tbl e p [= <- <-] Hp.
      apply elem_of_tableRecords in Hp as [k Hk].
      apply (Hok st eq_refl k p Hk).
  - destruct Hinv as [qs [ev [Hev [Hqs [Hat _]]]]]. exists (qs ++ [ev]).
    split; [exact Hev|]. split.
    + apply Forall_app. split.
      * eapply Forall_impl; [exact Hqs|]. intros e' [H _]. exact H.
      * constructor; [exact Hat | constructor].
    + intros tbl e' p [= <- <-] Hp. inversion Hp.
  - contradiction.
Qed.

(** ** Warnings *)

Lemma foldSample_sameTable now cfgRange tm qt s st1 st2 :
  sameTable st1 st2 ->
  sameTable (foldSample' now cfgRange tm qt st1 s)
            (foldSample' now cfgRange tm qt st2 s).
Proof.
  intros [Ht [Hh Hl]]. unfold sameTable, foldSample. simpl.
  rewrite Ht, Hh. repeat split. exact Hl.
Qed.

Lemma foldVector_sameTable now cfgRange tm qt v st1 st2 :
  sameTable st1 st2 ->
  sameTable (foldVector' now cfgRange tm qt st1 v)
            (foldVector' now cfgRange tm qt st2 v).
Proof.
  unfold foldVector. revert st1 st2.
  induction v as [|s v IH]; intros st1 st2 H; simpl; [exact H|].
  apply IH, foldSample_sameTable, H.
Qed.

(** C10. The warnings a query returns have no influence on what [top]
    returns: two runs whose query interfaces return the same values and
    the same errors, and any warnings, return the same table and the
    same error. *)
Theorem top_ignores_warnings (ctx : option context.Context)
  (queryType range : string) (api1 api2 : v1.API) :
  (forall n c q ts,
     v1.value (v1.Query api1 n c q ts) = v1.value (v1.Query api2 n c q ts) /\
     v1.err (v1.Query api1 n c q ts) = v1.err (v1.Query api2 n c q ts)) ->
  (top' {| Context := ctx; QueryType := queryType; Range := range;
           PrometheusClient := api1 |}).1 =
  (top' {| Context := ctx; QueryType := queryType; Range := range;
           PrometheusClient := api2 |}).1.
Proof.
  intros Hapi. rewrite !top_run. unfold run. simpl QueryType.
  set (cfg1 := {| Context := ctx; PrometheusClient := api1 |}).
  set (cfg2 := {| Context := ctx; PrometheusClient := api2 |}).
  pose proof (forEach_rel (step' cfg1 (Now 0%nat)) (step' cfg2 (Now 0%nat))
                (kindPairs targetMetrics (documentedKinds queryType))
                (initState [EvNow (Now 0%nat)]) (initState [EvNow (Now 0%nat)]))
    as Hrel.
  assert (Hsame : sameOutcome
            (forEach (step' cfg1 (Now 0%nat))
               (kindPairs targetMetrics (documentedKinds queryType))
               (initState [EvNow (Now 0%nat)]))
            (forEach (step' cfg2 (Now 0%nat))
               (kindPairs targetMetrics (documentedKinds queryType))
               (initState [EvNow (Now 0%nat)]))).
  { apply Hrel; [repeat split|]. clear Hrel.
    intros p s1 s2 [Ht [Hh Hl]]. unfold step. simpl.
    rewrite Hl.
    destruct (Hapi (length (events s2)) ctx
                (labelJoin (substituted p.2 p.1 range)) (Now 0%nat)) as [Hv He].
    rewrite He, Hv.
    destruct (v1.err (v1.Query api2 _ _ _ _)); [reflexivity|].
    destruct (v1.value (v1.Query api2 _ _ _ _)); try reflexivity.
    apply foldVector_sameTable. unfold sameTable. simpl.
    rewrite !length_app, Hl. repeat split; assumption. }
  clear Hrel.
  destruct (forEach (step' cfg1 _) _ _), (forEach (step' cfg2 _) _ _);
    simpl in Hsame; try contradiction.
  - destruct Hsame as [-> _]. reflexivity.
  - rewrite Hsame. reflexivity.
  - reflexivity.
Qed.

End RunClaims.

(** ** What a fold leaves in a record *)

Lemma writtenField_not_FInst (qt : string) : writtenField qt <> Some FInst.
Proof.
  unfold writtenField.
  repeat (match goal with |- context [if ?b then _ else _] => destruct b end;
          try discriminate).
Qed.

Lemma State_ext (st1 st2 : State) :
  events st1 = events st2 ->
  podMetricHashTable st1 = podMetricHashTable st2 ->
  hasher st1 = hasher st2 -> st1 = st2.
Proof. destruct st1, st2; simpl; intros; subst; reflexivity. Qed.

Section RecordFacts.

Variable Format : Time -> string -> string.
Variable TimestampFormat : string.
Variable now : Time.
Variable cfgRange : string.

Local Abbreviation sampleUpdate' := (sampleUpdate Format TimestampFormat now cfgRange).
Local Abbreviation applyAll' := (applyAll Format TimestampFormat now cfgRange).
Local Abbreviation fileSample' := (fileSample Format TimestampFormat now cfgRange).
Local Abbreviation aggregate' := (aggregate Format TimestampFormat now cfgRange).

Lemma applyAll_snoc us t p :
  applyAll' (us ++ [t]) p = sampleUpdate' t (applyAll' us p).
Proof. unfold applyAll. rewrite fold_left_app. reflexivity. Qed.

Lemma scalar_sampleUpdate f t p :
  scalar f (sampleUpdate' t p) =
  if decide (writtenField t.1.2 = Some f) then model.Value t.2 else scalar f p.
Proof.
  destruct t as [[tm qt] s]. unfold sampleUpdate. cbn [fst snd].
  pose proof (writtenField_not_FInst qt) as Hni.
  destruct (writtenField qt) as [[]|]; destruct f;
    case_decide; try congruence; reflexivity.
Qed.

Lemma applyAll_populated us p f :
  (exists t, t ∈ us /\ writtenField t.1.2 = Some f) ->
  exists t, t ∈ us /\ writtenField t.1.2 = Some f /\
            scalar f (applyAll' us p) = model.Value t.2.
Proof.
  induction us as [|t us IH] using rev_ind; intros [t0 [Hin Hf]].
  - inversion Hin.
  - rewrite applyAll_snoc, scalar_sampleUpdate.
    case_decide as Ht.
    + exists t. split; [|split; [exact Ht | reflexivity]].
      apply elem_of_app. right. apply list_elem_of_here.
    + apply elem_of_app in Hin as [Hin|Hin].
      * destruct IH as [t1 [Hin1 [Hf1 Hv]]]; [exists t0; split; assumption|].
        exists t1. split; [|split; assumption].
        apply elem_of_app. left. exact Hin1.
      * apply list_elem_of_singleton in Hin. subst t0. contradiction.
Qed.

Lemma applyAll_described us p :
  us <> [] ->
  exists t, t ∈ us /\
    dbhandler.Namespace (applyAll' us p) = label t.2 "namespace" /\
    dbhandler.Pod (applyAll' us p) = label t.2 "pod" /\
    dbhandler.Metric (applyAll' us p) = t.1.1 /\
    dbhandler.LabelApp (applyAll' us p) = label t.2 "label_app".
Proof.
  destruct us as [|t us _] using rev_ind; [congruence|]. intros _.
  exists t. split; [apply elem_of_app; right; apply list_elem_of_here|].
  rewrite applyAll_snoc. destruct t as [[tm qt] s]. unfold sampleUpdate.
  destruct (writtenField qt) as [[]|]; repeat split.
Qed.

Lemma elem_of_filedUnder t i l :
  t ∈ filedUnder i l <-> taggedId t = i /\ t ∈ l.
Proof. unfold filedUnder. rewrite list_elem_of_filter. reflexivity. Qed.

(** The record a folded sample is filed under. *)
Lemma fileAll_record (l : list Tagged) (t : Tagged) :
  t ∈ l ->
  fold_left fileSample' l ∅ !! taggedId t =
  Some (applyAll' (filedUnder (taggedId t) l) new_PodMetric) /\
  filedUnder (taggedId t) l <> [].
Proof.
  intros Hin. rewrite fileAll_lookup, lookup_empty.
  assert (Ht : t ∈ filedUnder (taggedId t) l)
    by (apply elem_of_filedUnder; split; [reflexivity | exact Hin]).
  destruct (filedUnder (taggedId t) l) as [|u us]; [inversion Ht|].
  split; [reflexivity | discriminate].
Qed.

(** C9. Folding the same sequence of (query, vector) inputs, at the same
    evaluation timestamp, a second time over the result of the first
    fold changes nothing: the state, and with it the table and every
    byte of its records, is the one the first fold produced.  The table
    of a fold that starts afresh depends on the inputs, the timestamp
    and the range alone. *)
Theorem aggregate_idempotent (inputs : list Input) (st : State)
  (ev : list Event) :
  hasher st = fnv.New32a ->
  aggregate' inputs (aggregate' inputs st) = aggregate' inputs st /\
  tableRecords (podMetricHashTable (aggregate' inputs (aggregate' inputs st))) =
  tableRecords (podMetricHashTable (aggregate' inputs st)) /\
  podMetricHashTable (aggregate' inputs (initState ev)) =
  fold_left fileSample' (tagged inputs) ∅.
Proof.
  intros Hh.
  assert (E : aggregate' inputs (aggregate' inputs st) = aggregate' inputs st).
  { pose proof (aggregate_hasher Format TimestampFormat now cfgRange inputs st Hh)
      as Hh1.
    apply State_ext.
    - rewrite !aggregate_events. reflexivity.
    - rewrite (aggregate_table _ _ _ _ inputs (aggregate' inputs st) Hh1).
      rewrite (aggregate_table _ _ _ _ inputs st Hh).
      apply fileAll_idem.
    - rewrite Hh1. apply aggregate_hasher. exact Hh1. }
  split; [exact E|]. split; [rewrite E; reflexivity|].
  apply aggregate_table. reflexivity.
Qed.

End RecordFacts.

(** ** One record per fingerprint *)

Lemma filter_none {A} (P : A -> Prop) `{forall x, Decision (P x)} (l : list A) :
  (forall x, x ∈ l -> ~ P x) -> filter P l = [].
Proof.
  induction l as [|a l IH]; intros Hl; [reflexivity|].
  rewrite filter_cons_False by (apply Hl, list_elem_of_here).
  apply IH. intros x Hx. apply Hl, list_elem_of_further, Hx.
Qed.

Lemma filter_unique_key (l : list (Z * PodMetric)) (i : Z) (r : PodMetric) :
  NoDup l.*1 ->
  (forall k v, (k, v) ∈ l -> recordId v = k) ->
  (i, r) ∈ l ->
  filter (fun p => recordId p = i) l.*2 = [r].
Proof.
  induction l as [|[k v] l IH]; intros Hnd Hid Hin; [inversion Hin|].
  simpl in Hnd. apply NoDup_cons in Hnd as [Hk Hnd].
  assert (Hidl : forall k' v', (k', v') ∈ l -> recordId v' = k')
    by (intros k' v' H'; apply Hid, list_elem_of_further, H').
  pose proof (Hid k v (list_elem_of_here _ _)) as Hv.
  apply elem_of_cons in Hin as [[= <- <-]|Hin].
  - simpl. rewrite filter_cons_True by exact Hv. f_equal.
    apply filter_none. intros v' Hv' Hi.
    apply list_elem_of_fmap in Hv' as [[k' v''] [-> Hin']].
    apply Hk. apply list_elem_of_fmap. exists (k', v''). split; [|exact Hin'].
    simpl in *. rewrite <- Hi. apply Hidl. exact Hin'.
  - simpl. rewrite filter_cons_False.
    + apply IH; assumption.
    + rewrite Hv. intros ->. apply Hk.
      apply list_elem_of_fmap. exists (i, r). split; [reflexivity | exact Hin].
Qed.

Lemma tableRecords_unique (tbl : gmap Z PodMetric) (i : Z) (r : PodMetric) :
  (forall k v, tbl !! k = Some v -> recordId v = k) ->
  tbl !! i = Some r ->
  filter (fun p => recordId p = i) (tableRecords tbl) = [r].
Proof.
  intros Hid Hi. unfold tableRecords. apply filter_unique_key.
  - apply NoDup_fst_map_to_list.
  - intros k v Hin. apply Hid. apply elem_of_map_to_list. exact Hin.
  - apply elem_of_map_to_list. exact Hi.
Qed.

Lemma elem_of_tagged_inputsOf (evs : list Event) (tm qt : string)
  (s : model.Sample) :
  (tm, qt, s) ∈ tagged (inputsOf evs) ->
  exists q ts r v, EvQuery tm qt q ts r ∈ evs /\ v1.err r = None /\
                   v1.value r = model.VectorValue v /\ s ∈ v.
Proof.
  unfold tagged, inputsOf. rewrite list_elem_of_In, in_flat_map.
  intros [[[tm' qt'] v] [Hin Hs]]. simpl in Hs.
  apply in_map_iff in Hs as [s' [[= -> -> ->] Hs']].
  apply in_flat_map in Hin as [e [He Hin]].
  destruct e as [|tm' qt' q ts r]; [inversion Hin|].
  destruct (v1.err r) eqn:Herr; [inversion Hin|].
  destruct (v1.value r) eqn:Hv; try (inversion Hin; fail).
  destruct Hin as [[= -> -> ->]|[]].
  exists q, ts, r, v. rewrite !list_elem_of_In. repeat split; assumption.
Qed.

Lemma distinct_kinds_written (q : string) (k1 k2 : TemplateKind) :
  k1 ∈ documentedKinds q -> k2 ∈ documentedKinds q -> k1 <> k2 ->
  writtenField (templateOf k1) = Some (fieldOfKind k1) /\
  writtenField (templateOf k2) = Some (fieldOfKind k2).
Proof.
  unfold documentedKinds. intros H1 H2 Hne.
  destruct (String.eqb q "q");
    [apply list_elem_of_singleton in H1, H2; congruence|].
  destruct (String.eqb q "a");
    [apply list_elem_of_singleton in H1, H2; congruence|].
  destruct (String.eqb q "i");
    [apply list_elem_of_singleton in H1, H2; congruence|].
  rewrite !writtenField_templateOf.
  split; [destruct k1 | destruct k2]; try reflexivity; exfalso.
  - repeat (apply elem_of_cons in H1 as [H1|H1]; [discriminate H1|]).
    inversion H1.
  - repeat (apply elem_of_cons in H2 as [H2|H2]; [discriminate H2|]).
    inversion H2.
Qed.

Section FoldClaims.

Variable Format : Time -> string -> string.
Variable TimestampFormat : string.
Variable Now : nat -> Time.

Local Abbreviation top' := (top Format TimestampFormat Now).
Local Abbreviation run' := (run Format TimestampFormat Now).
Local Abbreviation step' := (step Format TimestampFormat).
Local Abbreviation fileSample' := (fileSample Format TimestampFormat).
Local Abbreviation applyAll' := (applyAll Format TimestampFormat).

Lemma run_events_from cfg :
  Forall (eventFrom (kindPairs targetMetrics (documentedKinds (QueryType cfg))))
         (events (stateOf (run' cfg))).
Proof.
  unfold run.
  set (kp := kindPairs _ _).
  pose proof (forEach_inv
    (fun st => Forall (eventFrom kp) (events st))
    (fun o => Forall (eventFrom kp) (events (stateOf o)))
    (step' cfg (Now 0%nat)) kp (initState [EvNow (Now 0%nat)])) as Hinv.
  match type of Hinv with ?A -> ?B -> _ =>
    assert (HA : A); [|assert (HB : B); [|specialize (Hinv HA HB)]] end.
  - constructor; [exact I | constructor].
  - intros p st Hp Hst.
    assert (Hev : Forall (eventFrom kp) (events (stateOf (step' cfg (Now 0%nat) p st)))).
    { assert (Hnew : Forall (eventFrom kp)
                (events st ++ [EvQuery p.1 (templateOf p.2)
                   (labelJoin (substituted p.2 p.1 (Range cfg))) (Now 0%nat)
                   (v1.Query (PrometheusClient cfg) (length (events st))
                      (Context cfg)
                      (labelJoin (substituted p.2 p.1 (Range cfg))) (Now 0%nat))])).
      { apply Forall_app. split; [exact Hst|]. constructor; [|constructor].
        exists p.2. split; [reflexivity|]. destruct p; exact Hp. }
      unfold step. destruct (v1.err _); [exact Hnew|].
      destruct (v1.value _); simpl; rewrite ?foldVector_events; exact Hnew. }
    destruct (step' cfg (Now 0%nat) p st); exact Hev.
  - destruct (forEach _ _ _); exact Hinv.
Qed.

(** What a run that returned a table has in it for a folded sample. *)
Lemma top_record_of cfg tbl t :
  (top' cfg).1 = Returned tbl None ->
  t ∈ tagged (inputsOf (top' cfg).2) ->
  let l := tagged (inputsOf (top' cfg).2) in
  let r := applyAll' (Now 0%nat) (Range cfg) (filedUnder (taggedId t) l)
             new_PodMetric in
  filedUnder (taggedId t) l <> [] /\
  filter (fun p => recordId p = taggedId t) tbl = [r] /\
  recordId r = taggedId t /\
  dbhandler.Range r = Range cfg /\
  dbhandler.QueryTime r = Format (Now 0%nat) TimestampFormat.
Proof.
  rewrite top_run.
  pose proof (run_inv Format TimestampFormat Now cfg) as Hinv.
  pose proof (run_records_ok Format TimestampFormat Now cfg) as Hok.
  destruct (run' cfg) as [st|e st|st]; simpl; [|intros [=]|intros [=]].
  intros [= <-] Hin. destruct Hinv as [_ [_ Ht]].
  specialize (Hok st eq_refl).
  destruct (fileAll_record Format TimestampFormat (Now 0%nat) (Range cfg)
              _ t Hin) as [Hl Hne].
  rewrite <- Ht in Hl.
  destruct (Hok _ _ Hl) as [Hqt [Hr [Hid _]]].
  split; [exact Hne|]. split; [|repeat split; assumption].
  apply tableRecords_unique; [|exact Hl].
  intros k v Hk. apply (Hok k v Hk).
Qed.

(** Two samples folded in one run that agree on namespace, pod and
    target metric have the same fingerprint, and when they come from
    different template kinds the table returned holds exactly one record
    with that fingerprint: the field of each of the two kinds holds the
    value of a sample of that kind filed under the fingerprint (the
    sample's own, unless a later one of its kind replaced it), and the
    record's namespace, pod, metric and deployment label are those of a
    sample filed under the fingerprint, its range the configured range
    and its timestamp the run's instant. *)
Theorem top_same_identity_one_record (cfg : Config) (tbl : PodMetricTable)
  (tm : string) (k1 k2 : TemplateKind) (s1 s2 : model.Sample) :
  (top' cfg).1 = Returned tbl None ->
  (tm, templateOf k1, s1) ∈ tagged (inputsOf (top' cfg).2) ->
  (tm, templateOf k2, s2) ∈ tagged (inputsOf (top' cfg).2) ->
  label s1 "namespace" = label s2 "namespace" ->
  label s1 "pod" = label s2 "pod" ->
  k1 <> k2 ->
  sampleId tm s2 = sampleId tm s1 /\
  exists r,
    filter (fun p => recordId p = sampleId tm s1) tbl = [r] /\
    populatedBy (tagged (inputsOf (top' cfg).2)) (sampleId tm s1)
      (fieldOfKind k1) r /\
    populatedBy (tagged (inputsOf (top' cfg).2)) (sampleId tm s1)
      (fieldOfKind k2) r /\
    describedBy (tagged (inputsOf (top' cfg).2)) (sampleId tm s1) r /\
    dbhandler.Range r = Range cfg /\
    dbhandler.QueryTime r = Format (Now 0%nat) TimestampFormat.
Proof.
  intros Hret H1 H2 Hns Hpod Hne.
  assert (Hid : sampleId tm s2 = sampleId tm s1)
    by (unfold sampleId; rewrite Hns, Hpod; reflexivity).
  split; [exact Hid|].
  set (l := tagged (inputsOf (top' cfg).2)) in *.
  set (i := sampleId tm s1) in *.
  (* both kinds belong to the selected set, hence to the default one *)
  assert (Hk : forall k s, (tm, templateOf k, s) ∈ l ->
                 k ∈ documentedKinds (QueryType cfg)).
  { intros k s Hin. apply elem_of_tagged_inputsOf in Hin
      as [q [ts [r [v [Hev _]]]]].
    pose proof (run_events_from cfg) as Hfrom.
    assert (Hevs : (top' cfg).2 = events (stateOf (run' cfg)))
      by (rewrite top_run; destruct (run' cfg); reflexivity).
    rewrite Hevs in Hev. rewrite Forall_forall in Hfrom.
    destruct (Hfrom _ Hev) as [k' [Hk' Hp]].
    apply templateOf_inj in Hk'. subst k'.
    apply elem_of_kindPairs in Hp as [_ Hp]. exact Hp. }
  destruct (distinct_kinds_written (QueryType cfg) k1 k2
              (Hk k1 s1 H1) (Hk k2 s2 H2) Hne) as [Hw1 Hw2].
  destruct (top_record_of cfg tbl (tm, templateOf k1, s1) Hret H1)
    as [Hnil [Hone [_ [Hrange Htime]]]].
  change (taggedId (tm, templateOf k1, s1)) with i in *. fold l in Hnil, Hone.
  set (us := filedUnder i l) in *.
  exists (applyAll' (Now 0%nat) (Range cfg) us new_PodMetric).
  split; [exact Hone|].
  assert (Hpop : forall k s, (tm, templateOf k, s) ∈ l -> sampleId tm s = i ->
            writtenField (templateOf k) = Some (fieldOfKind k) ->
            populatedBy l i (fieldOfKind k)
              (applyAll' (Now 0%nat) (Range cfg) us new_PodMetric)).
  { intros k s Hin Hi Hw.
    destruct (applyAll_populated Format TimestampFormat (Now 0%nat) (Range cfg)
                us new_PodMetric (fieldOfKind k)) as [t [Ht [Hf Hv]]].
    - exists (tm, templateOf k, s). split; [|exact Hw].
      apply elem_of_filedUnder. split; [exact Hi | exact Hin].
    - apply elem_of_filedUnder in Ht as [Hti Htl].
      exists t. repeat split; assumption. }
  split; [apply (Hpop k1 s1 H1 eq_refl Hw1)|].
  split; [apply (Hpop k2 s2 H2 Hid Hw2)|].
  split; [|split; assumption].
  destruct (applyAll_described Format TimestampFormat (Now 0%nat) (Range cfg)
              us new_PodMetric Hnil) as [t [Ht Hd]].
  apply elem_of_filedUnder in Ht as [Hti Htl].
  exists t. split; [exact Htl|]. split; [exact Hti | exact Hd].
Qed.

(** Two samples folded in one run whose
    fingerprints differ are filed in two distinct records: the table
    returned holds exactly one record for each of the two fingerprints,
    and the two records differ. *)
Theorem top_distinct_fingerprints_distinct_records (cfg : Config)
  (tbl : PodMetricTable) (t1 t2 : Tagged) :
  (top' cfg).1 = Returned tbl None ->
  t1 ∈ tagged (inputsOf (top' cfg).2) ->
  t2 ∈ tagged (inputsOf (top' cfg).2) ->
  taggedId t1 <> taggedId t2 ->
  exists r1 r2,
    filter (fun p => recordId p = taggedId t1) tbl = [r1] /\
    filter (fun p => recordId p = taggedId t2) tbl = [r2] /\
    r1 <> r2.
Proof.
  intros Hret H1 H2 Hne.
  destruct (top_record_of cfg tbl t1 Hret H1) as [_ [Hone1 [Hid1 _]]].
  destruct (top_record_of cfg tbl t2 Hret H2) as [_ [Hone2 [Hid2 _]]].
  eexists _, _. split; [exact Hone1|]. split; [exact Hone2|].
  intros E. apply Hne. rewrite <- Hid1, <- Hid2, E. reflexivity.
Qed.

End FoldClaims.

(** ** Concrete runs, evaluated *)

(** C1 (what the code does).  A run with the instant selector over a
    backend that returns one sample per query, entered through [Top]
    with no range and no context given: two records come back, and in
    each the instantaneous field is left at zero while the sample's
    value sits in the minimum field. *)
Theorem instant_run_writes_MinValue :
  exists r1 r2,
    (Top exFormat exLayout exNow
       {| Context := None; QueryType := "i"; Range := EmptyString;
          PrometheusClient := apiOnePod [] |}).1 =
      Returned [r1; r2] None /\
    dbhandler.InstValue r1 = 0 /\ dbhandler.InstValue r2 = 0 /\
    dbhandler.MinValue r1 = 2 /\ dbhandler.MinValue r2 = 1 /\
    dbhandler.Q95Value r1 = 0 /\ dbhandler.Q95Value r2 = 0 /\
    dbhandler.AvgValue r1 = 0 /\ dbhandler.AvgValue r2 = 0 /\
    dbhandler.MaxValue r1 = 0 /\ dbhandler.MaxValue r2 = 0 /\
    dbhandler.Metric r1 = memoryMetric /\ dbhandler.Metric r2 = cpuMetric /\
    dbhandler.Range r1 = defaultRange /\ dbhandler.Range r2 = defaultRange.
Proof. eexists _, _. vm_compute. repeat split. Qed.

(** No run ever writes the instantaneous field. *)
Lemma top_never_writes_InstValue Format TimestampFormat Now cfg tbl e p :
  (top Format TimestampFormat Now cfg).1 = Returned tbl e ->
  p ∈ tbl -> dbhandler.InstValue p = 0.
Proof.
  rewrite top_run.
  pose proof (run_records_ok Format TimestampFormat Now cfg) as Hok.
  destruct (run _ _ _ cfg) as [st|e' st|st]; simpl; intros [= <- <-] Hp.
  - apply elem_of_tableRecords in Hp as [k Hk].
    destruct (Hok st eq_refl k p Hk) as [_ [_ [_ H]]]. exact H.
  - inversion Hp.
Qed.

(** C8 (what the code does).  The label template of [top] selects the
    deployment-label metadata on a non-empty pod only: no query of a
    default run carries a matcher on [label_app].  The constant of the
    same name in [pkg/top/queries.go] selects on a non-empty pod and a
    non-empty [label_app], and so does every query its composer
    produces.  Both join on the pod and group by pod, namespace and
    node. *)
Theorem appLabelQuery_selects_on_pod_only :
  let selectPod := "kube_pod_labels{pod!=" +:+ dq +:+ dq +:+ "})" in
  let selectPodAndLabel :=
    "kube_pod_labels{pod!=" +:+ dq +:+ dq +:+ ", label_app!=" +:+ dq +:+ dq +:+ "})" in
  let defaults := {| Context := None; QueryType := EmptyString;
                     Range := EmptyString; PrometheusClient := apiOnePod [] |} in
  let issued := queriesOf (Top exFormat exLayout exNow defaults).2 in
  Contains appLabelQuery selectPod = true /\
  Contains appLabelQuery "label_app!=" = false /\
  Contains appLabelQuery "* on (pod) group_right(label_app)" = true /\
  Contains appLabelQuery "sum by (pod, namespace, node) (" = true /\
  length issued = 8%nat /\
  forallb (fun q => Contains q selectPod && negb (Contains q "label_app!="))
    issued = true /\
  Contains queries_go.appLabelQuery selectPodAndLabel = true /\
  exists composed,
    queries_go.generateTargetMetricQueries
      {| Context := None; QueryType := EmptyString; Range := "10m";
         PrometheusClient := apiOnePod [] |} = Some (inl composed) /\
    length composed = 6%nat /\
    forallb (fun q => Contains q selectPodAndLabel) composed = true.
Proof. vm_compute. repeat split. eexists. repeat split. Qed.

(** C3 (what the code does).  The pods [a-b/c] and [a/b-c] differ in
    namespace and in name; both are folded in one run, for the same
    metric; their fingerprints are equal and the run returns a single
    record, which carries the identity of the second pod and the value
    of the second sample. *)
Lemma colliding_identities_share_one_record :
  label podAB_C "namespace" <> label podA_BC "namespace" /\
  label podAB_C "pod" <> label podA_BC "pod" /\
  (cpuMetric, quantileOverTimeTemplate, podAB_C) ∈
    tagged (inputsOf (top exFormat exLayout exNow (exConfig "q" apiTwoPods)).2) /\
  (cpuMetric, quantileOverTimeTemplate, podA_BC) ∈
    tagged (inputsOf (top exFormat exLayout exNow (exConfig "q" apiTwoPods)).2) /\
  sampleId cpuMetric podAB_C = sampleId cpuMetric podA_BC /\
  (top exFormat exLayout exNow (exConfig "q" apiTwoPods)).1 =
    Returned [ {| dbhandler.Metric := cpuMetric; dbhandler.Range := "10m";
                  dbhandler.Pod := "b-c"; dbhandler.Namespace := "a";
                  dbhandler.LabelApp := "app";
                  dbhandler.QueryTime := exLayout;
                  dbhandler.Q95Value := 22; dbhandler.MaxValue := 0;
                  dbhandler.MinValue := 0; dbhandler.AvgValue := 0;
                  dbhandler.InstValue := 0 |} ] None.
Proof.
  split; [vm_compute; discriminate|].
  split; [vm_compute; discriminate|].
  split; [apply (list_elem_of_lookup_2 _ 0%nat); vm_compute; reflexivity|].
  split; [apply (list_elem_of_lookup_2 _ 1%nat); vm_compute; reflexivity|].
  split; vm_compute; reflexivity.
Qed.

(** ** Witnesses *)

Lemma top_fails_without_records_witness :
  (exists e, (top exFormat exLayout exNow (exConfig EmptyString apiSecondFails)).1
             = Returned [] (Some e)) /\
  (exists e, (top exFormat exLayout exNow (exConfig EmptyString apiSecondScalar)).1
             = Returned [] (Some e)).
Proof.
  split.
  - apply (top_fails_without_records exFormat exLayout exNow
             (exConfig EmptyString apiSecondFails)
             cpuMetric avgOverTimeTemplate
             (labelJoin (substituted Average cpuMetric "10m")) 1000
             {| v1.value := model.NilValue; v1.warnings := [];
                v1.err := Some "connection refused" |}).
    + apply (list_elem_of_lookup_2 _ 2%nat). vm_compute. reflexivity.
    + left. discriminate.
  - apply (top_fails_without_records exFormat exLayout exNow
             (exConfig EmptyString apiSecondScalar)
             cpuMetric avgOverTimeTemplate
             (labelJoin (substituted Average cpuMetric "10m")) 1000
             {| v1.value := model.ScalarValue 5 1000; v1.warnings := [];
                v1.err := None |}).
    + apply (list_elem_of_lookup_2 _ 2%nat). vm_compute. reflexivity.
    + right. discriminate.
Defined.

Lemma top_ignores_warnings_witness :
  (top exFormat exLayout exNow (exConfig EmptyString (apiOnePod []))).1 =
  (top exFormat exLayout exNow
     (exConfig EmptyString (apiOnePod ["PromQL info: metric might not be a counter"]))).1.
Proof.
  apply (top_ignores_warnings exFormat exLayout exNow
           (Some context.Background) EmptyString "10m"
           (apiOnePod []) (apiOnePod ["PromQL info: metric might not be a counter"])).
  intros n c q ts. split; reflexivity.
Defined.

Lemma aggregate_idempotent_witness :
  let inputs : list Input :=
    [(cpuMetric, quantileOverTimeTemplate, [podAB_C; exSample "ns" "p1" "app" 3]);
     (cpuMetric, avgOverTimeTemplate, [exSample "ns" "p1" "app" 4]);
     (cpuMetric, quantileOverTimeTemplate, [exSample "ns" "p1" "app" 5])] in
  let st := aggregate exFormat exLayout 1000 "10m" inputs (initState []) in
  size (podMetricHashTable st) = 2%nat /\
  aggregate exFormat exLayout 1000 "10m" inputs st = st.
Proof.
  intros inputs st. split; [vm_compute; reflexivity|].
  apply (aggregate_idempotent exFormat exLayout 1000 "10m" inputs (initState []) []).
  reflexivity.
Defined.

Lemma top_same_identity_one_record_witness :
  exists r,
    filter (fun p => recordId p = sampleId cpuMetric (exSample "ns" "p1" "app" 1))
      (exTable (top exFormat exLayout exNow (exConfig EmptyString (apiOnePod []))))
      = [r] /\
    dbhandler.Q95Value r = 1 /\ dbhandler.MaxValue r = 3.
Proof.
  destruct (top_same_identity_one_record exFormat exLayout exNow
              (exConfig EmptyString (apiOnePod []))
              (exTable (top exFormat exLayout exNow
                          (exConfig EmptyString (apiOnePod []))))
              cpuMetric Quantile95 Maximum
              (exSample "ns" "p1" "app" 1) (exSample "ns" "p1" "app" 3))
    as [_ [r [Hone _]]].
  - vm_compute. reflexivity.
  - apply (list_elem_of_lookup_2 _ 0%nat). vm_compute. reflexivity.
  - apply (list_elem_of_lookup_2 _ 2%nat). vm_compute. reflexivity.
  - reflexivity.
  - reflexivity.
  - discriminate.
  - exists r. split; [exact Hone|].
    vm_compute in Hone. injection Hone as <-. split; reflexivity.
Defined.

Lemma top_distinct_fingerprints_distinct_records_witness :
  exists r1 r2,
    filter (fun p => recordId p = sampleId cpuMetric (exSample "ns" "p1" "app" 1))
      (exTable (top exFormat exLayout exNow (exConfig EmptyString (apiOnePod []))))
      = [r1] /\
    filter (fun p => recordId p = sampleId memoryMetric (exSample "ns" "p1" "app" 5))
      (exTable (top exFormat exLayout exNow (exConfig EmptyString (apiOnePod []))))
      = [r2] /\
    r1 <> r2.
Proof.
  apply (top_distinct_fingerprints_distinct_records exFormat exLayout exNow
           (exConfig EmptyString (apiOnePod []))
           (exTable (top exFormat exLayout exNow
                       (exConfig EmptyString (apiOnePod []))))
           (cpuMetric, quantileOverTimeTemplate, exSample "ns" "p1" "app" 1)
           (memoryMetric, quantileOverTimeTemplate, exSample "ns" "p1" "app" 5)).
  - vm_compute. reflexivity.
  - apply (list_elem_of_lookup_2 _ 0%nat). vm_compute. reflexivity.
  - apply (list_elem_of_lookup_2 _ 4%nat). vm_compute. reflexivity.
  - vm_compute. discriminate.
Defined.

(* ===================================================================== *)
(** * Further properties *)
(* ===================================================================== *)

(** ** The table of a run *)

Lemma fnv_Write_bound (data : string) (h : Z) :
  0 <= h < 2 ^ 32 -> 0 <= fnv.Write h data < 2 ^ 32.
Proof.
  revert h. induction data as [|c data IH]; intros h Hh; simpl; [exact Hh|].
  apply IH. apply Z.mod_pos_bound. reflexivity.
Qed.

Lemma fingerprint_bound (ns pod tm : string) :
  0 <= fingerprint ns pod tm < 2 ^ 32.
Proof.
  unfold fingerprint, fnv.Sum32. apply fnv_Write_bound.
  unfold fnv.New32a, fnv.offset32. split; [discriminate | reflexivity].
Qed.

Lemma size_list_to_set_le (l : list Z) :
  (size (list_to_set l : gset Z) <= length l)%nat.
Proof.
  induction l as [|x l IH].
  - rewrite list_to_set_nil, size_empty. reflexivity.
  - rewrite list_to_set_cons, size_union_alt, size_singleton. cbn [length].
    pose proof (subseteq_size (list_to_set l ∖ {[x]}) (list_to_set l : gset Z)) as H.
    assert ((list_to_set l ∖ {[x]} : gset Z) ⊆ list_to_set l) as Hs by set_solver.
    specialize (H Hs). lia.
Qed.

Lemma recordId_keys (l : list (Z * PodMetric)) :
  (forall k v, (k, v) ∈ l -> recordId v = k) ->
  recordId <$> l.*2 = l.*1.
Proof.
  induction l as [|[k v] l IH]; intros Hid; [reflexivity|].
  simpl. rewrite (Hid k v (list_elem_of_here _ _)). f_equal.
  apply IH. intros k' v' H'. apply Hid, list_elem_of_further, H'.
Qed.

Lemma filedUnder_app i l1 l2 :
  filedUnder i (l1 ++ l2) = filedUnder i l1 ++ filedUnder i l2.
Proof. unfold filedUnder. apply filter_app. Qed.

Section TableFacts.

Variable Format : Time -> string -> string.
Variable TimestampFormat : string.
Variable Now : nat -> Time.

Local Abbreviation top' := (top Format TimestampFormat Now).
Local Abbreviation run' := (run Format TimestampFormat Now).
Local Abbreviation fileSample' := (fileSample Format TimestampFormat).
Local Abbreviation applyAll' := (applyAll Format TimestampFormat).
Local Abbreviation sampleUpdate' := (sampleUpdate Format TimestampFormat).

Lemma fileAll_dom now cfgRange (l : list Tagged) (tbl : gmap Z PodMetric) :
  dom (fold_left (fileSample' now cfgRange) l tbl) = dom tbl ∪ fingerprintsOf l.
Proof.
  revert tbl. induction l as [|t l IH]; intros tbl; simpl.
  - unfold fingerprintsOf. simpl. set_solver.
  - rewrite IH. unfold fileSample. rewrite dom_insert_L.
    unfold fingerprintsOf. simpl. set_solver.
Qed.

(** The table a run returns, and the samples it folded. *)
Lemma top_table cfg tbl :
  (top' cfg).1 = Returned tbl None ->
  exists T : gmap Z PodMetric,
    tbl = tableRecords T /\
    T = fold_left (fileSample' (Now 0%nat) (Range cfg))
          (tagged (inputsOf (top' cfg).2)) ∅ /\
    (forall k r, T !! k = Some r ->
       recordOk Format TimestampFormat (Now 0%nat) (Range cfg) k r).
Proof.
  rewrite top_run.
  pose proof (run_inv Format TimestampFormat Now cfg) as Hinv.
  pose proof (run_records_ok Format TimestampFormat Now cfg) as Hok.
  destruct (run' cfg) as [st|e st|st]; simpl; intros [= <-].
  destruct Hinv as [_ [_ Ht]].
  exists (podMetricHashTable st). split; [reflexivity|]. split; [exact Ht|].
  apply Hok. reflexivity.
Qed.

Lemma top_returned_records cfg tbl e p :
  (top' cfg).1 = Returned tbl e -> p ∈ tbl -> e = None.
Proof.
  rewrite top_run. destruct (run' cfg); simpl; intros [= <- <-] Hp;
    [reflexivity | inversion Hp].
Qed.

(** Every folded sample comes from a target metric and a template of
    the selected kinds. *)
Lemma top_folded_from cfg t :
  t ∈ tagged (inputsOf (top' cfg).2) ->
  t.1.1 ∈ targetMetrics /\
  exists k, t.1.2 = templateOf k /\ k ∈ documentedKinds (QueryType cfg).
Proof.
  destruct t as [[tm qt] s]. intros Hin.
  apply elem_of_tagged_inputsOf in Hin as [q [ts [r [v [Hev _]]]]].
  pose proof (run_events_from Format TimestampFormat Now cfg) as Hfrom.
  assert (Hevs : (top' cfg).2 = events (stateOf (run' cfg)))
    by (rewrite top_run; destruct (run' cfg); reflexivity).
  rewrite Hevs in Hev. rewrite Forall_forall in Hfrom.
  destruct (Hfrom _ Hev) as [k [Hk Hp]].
  apply elem_of_kindPairs in Hp as [Htm Hp].
  split; [exact Htm|]. exists k. split; assumption.
Qed.

Lemma applyAll_unwritten now cfgRange us p f :
  (forall t, t ∈ us -> writtenField t.1.2 <> Some f) ->
  scalar f (applyAll' now cfgRange us p) = scalar f p.
Proof.
  induction us as [|t us IH] using rev_ind; intros Hus; [reflexivity|].
  rewrite applyAll_snoc, scalar_sampleUpdate.
  case_decide as Ht.
  - exfalso. apply (Hus t); [|exact Ht].
    apply elem_of_app. right. apply list_elem_of_here.
  - apply IH. intros t' Ht'. apply Hus. apply elem_of_app. left. exact Ht'.
Qed.

Lemma applyAll_last_write now cfgRange us1 t us2 p f :
  writtenField t.1.2 = Some f ->
  (forall t', t' ∈ us2 -> writtenField t'.1.2 <> Some f) ->
  scalar f (applyAll' now cfgRange (us1 ++ t :: us2) p) = model.Value t.2.
Proof.
  intros Ht Hus2.
  assert (E : applyAll' now cfgRange (us1 ++ t :: us2) p =
              applyAll' now cfgRange us2
                (sampleUpdate' now cfgRange t (applyAll' now cfgRange us1 p))).
  { unfold applyAll. rewrite fold_left_app. reflexivity. }
  rewrite E, (applyAll_unwritten _ _ us2 _ f Hus2), scalar_sampleUpdate.
  case_decide; [reflexivity | contradiction].
Qed.

(** X1. A run that returns a table returns one record per fingerprint
    among the samples it folded: as many records as there are distinct
    fingerprints, no two of them with the same fingerprint, and so at
    most as many as there are samples. *)
Theorem top_one_record_per_fingerprint (cfg : Config) (tbl : PodMetricTable) :
  (top' cfg).1 = Returned tbl None ->
  length tbl = size (fingerprintsOf (tagged (inputsOf (top' cfg).2))) /\
  NoDup (recordId <$> tbl) /\
  (length tbl <= length (tagged (inputsOf (top' cfg).2)))%nat.
Proof.
  intros Hret. destruct (top_table cfg tbl Hret) as [T [-> [HT Hok]]].
  assert (Hlen : length (tableRecords T) =
                 size (fingerprintsOf (tagged (inputsOf (top' cfg).2)))).
  { unfold tableRecords. rewrite length_fmap, length_map_to_list.
    rewrite <- size_dom, HT, fileAll_dom, dom_empty_L, union_empty_l_L.
    reflexivity. }
  split; [exact Hlen|]. split.
  - unfold tableRecords. rewrite recordId_keys.
    + apply NoDup_fst_map_to_list.
    + intros k v Hin. apply elem_of_map_to_list in Hin.
      destruct (Hok k v Hin) as [_ [_ [H _]]]. exact H.
  - rewrite Hlen. unfold fingerprintsOf.
    etransitivity; [apply size_list_to_set_le|]. rewrite length_fmap. reflexivity.
Qed.

(** X2. The last sample wins: when several samples of one run are filed
    under the same fingerprint by templates that write the same field,
    the record holds the value of the one folded last. *)
Theorem top_last_sample_wins (cfg : Config) (tbl : PodMetricTable)
  (l1 l2 : list Tagged) (t : Tagged) (f : ScalarField) :
  (top' cfg).1 = Returned tbl None ->
  tagged (inputsOf (top' cfg).2) = l1 ++ t :: l2 ->
  writtenField t.1.2 = Some f ->
  (forall t', t' ∈ l2 -> taggedId t' = taggedId t ->
              writtenField t'.1.2 <> Some f) ->
  exists r,
    filter (fun p => recordId p = taggedId t) tbl = [r] /\
    scalar f r = model.Value t.2.
Proof.
  intros Hret Hl Hw Hlast.
  assert (Hin : t ∈ tagged (inputsOf (top' cfg).2)).
  { rewrite Hl. apply elem_of_app. right. apply list_elem_of_here. }
  destruct (top_record_of Format TimestampFormat Now cfg tbl t Hret Hin)
    as [_ [Hone _]].
  eexists. split; [exact Hone|].
  rewrite Hl, filedUnder_app, filedUnder_cons_eq.
  apply applyAll_last_write; [exact Hw|].
  intros t' Ht'. apply elem_of_filedUnder in Ht' as [Hid Ht'].
  apply Hlast; assumption.
Qed.

(** X3. A scalar field that none of the selected templates writes is
    zero in every record of the run. *)
Theorem top_unselected_field_zero (cfg : Config) (tbl : PodMetricTable)
  (e : option error) (f : ScalarField) (p : PodMetric) :
  (top' cfg).1 = Returned tbl e ->
  p ∈ tbl ->
  (forall k, k ∈ documentedKinds (QueryType cfg) ->
             writtenField (templateOf k) <> Some f) ->
  scalar f p = 0.
Proof.
  intros Hret Hp Hsel.
  pose proof (top_returned_records cfg tbl e p Hret Hp) as ->.
  destruct (top_table cfg tbl Hret) as [T [-> [HT _]]].
  apply elem_of_tableRecords in Hp as [k Hk].
  rewrite HT, fileAll_lookup, lookup_empty in Hk.
  destruct (filedUnder k _) as [|u us] eqn:Hus; [discriminate Hk|].
  injection Hk as <-.
  change (scalar f (applyAll' (Now 0%nat) (Range cfg) (u :: us) new_PodMetric) = 0).
  rewrite (applyAll_unwritten _ _ (u :: us) _ f); [destruct f; reflexivity|].
  intros t Ht. rewrite <- Hus in Ht.
  apply elem_of_filedUnder in Ht as [_ Ht].
  destruct (top_folded_from cfg t Ht) as [_ [k' [-> Hk']]].
  apply Hsel. exact Hk'.
Qed.

(** X4. The descriptive fields of a record are those of the sample
    folded last under its fingerprint: its namespace, pod and deployment
    label, and the metric of its query. *)
Theorem top_record_describes_last_sample (cfg : Config)
  (tbl : PodMetricTable) (l1 l2 : list Tagged) (t : Tagged) :
  (top' cfg).1 = Returned tbl None ->
  tagged (inputsOf (top' cfg).2) = l1 ++ t :: l2 ->
  (forall t', t' ∈ l2 -> taggedId t' <> taggedId t) ->
  exists r,
    filter (fun p => recordId p = taggedId t) tbl = [r] /\
    dbhandler.Namespace r = label t.2 "namespace" /\
    dbhandler.Pod r = label t.2 "pod" /\
    dbhandler.Metric r = t.1.1 /\
    dbhandler.LabelApp r = label t.2 "label_app".
Proof.
  intros Hret Hl Hlast.
  assert (Hin : t ∈ tagged (inputsOf (top' cfg).2)).
  { rewrite Hl. apply elem_of_app. right. apply list_elem_of_here. }
  destruct (top_record_of Format TimestampFormat Now cfg tbl t Hret Hin)
    as [_ [Hone _]].
  eexists. split; [exact Hone|].
  rewrite Hl, filedUnder_app, filedUnder_cons_eq.
  assert (Hnone : filedUnder (taggedId t) l2 = []).
  { apply filter_none. intros t' Ht'. apply Hlast. exact Ht'. }
  rewrite Hnone.
  rewrite applyAll_snoc. destruct t as [[tm qt] s]. unfold sampleUpdate.
  destruct (writtenField qt) as [[]|]; repeat split.
Qed.

Lemma top_record_range cfg tbl e p :
  (top' cfg).1 = Returned tbl e -> p ∈ tbl -> dbhandler.Range p = Range cfg.
Proof.
  intros Hret Hp.
  pose proof (top_returned_records cfg tbl e p Hret Hp) as ->.
  destruct (top_table cfg tbl Hret) as [T [-> [_ Hok]]].
  apply elem_of_tableRecords in Hp as [k Hk].
  destruct (Hok k p Hk) as [_ [Hr _]]. exact Hr.
Qed.

(** X5. Every record a run returns carries the configured range, the
    name of one of the target metrics and a fingerprint that fits 32
    bits. *)
Theorem top_records_wellformed (cfg : Config) (tbl : PodMetricTable)
  (e : option error) (p : PodMetric) :
  (top' cfg).1 = Returned tbl e ->
  p ∈ tbl ->
  dbhandler.Range p = Range cfg /\
  dbhandler.Metric p ∈ targetMetrics /\
  0 <= recordId p < 2 ^ 32.
Proof.
  intros Hret Hp.
  pose proof (top_returned_records cfg tbl e p Hret Hp) as ->.
  destruct (top_table cfg tbl Hret) as [T [-> [HT Hok]]].
  apply elem_of_tableRecords in Hp as [k Hk].
  destruct (Hok k p Hk) as [_ [Hr _]].
  split; [exact Hr|]. split; [|apply fingerprint_bound].
  rewrite HT, fileAll_lookup, lookup_empty in Hk.
  destruct (filedUnder k _) as [|u us] eqn:Hus; [discriminate Hk|].
  injection Hk as <-.
  destruct (applyAll_described Format TimestampFormat (Now 0%nat) (Range cfg)
              (u :: us) new_PodMetric) as [t [Ht [_ [_ [Hm _]]]]];
    [discriminate|].
  change (dbhandler.Metric
            (applyAll' (Now 0%nat) (Range cfg) (u :: us) new_PodMetric)
          ∈ targetMetrics).
  rewrite Hm. rewrite <- Hus in Ht.
  apply elem_of_filedUnder in Ht as [_ Ht].
  apply (top_folded_from cfg t Ht).
Qed.

End TableFacts.

(** ** The order of the samples *)

Section OrderFacts.

Variable Format : Time -> string -> string.
Variable TimestampFormat : string.
Variable now : Time.
Variable cfgRange : string.

Local Abbreviation fileSample' := (fileSample Format TimestampFormat now cfgRange).
Local Abbreviation applyAll' := (applyAll Format TimestampFormat now cfgRange).
Local Abbreviation sampleUpdate' := (sampleUpdate Format TimestampFormat now cfgRange).
Local Abbreviation aggregate' := (aggregate Format TimestampFormat now cfgRange).

Lemma applyAll_range_time us p :
  us <> [] ->
  dbhandler.Range (applyAll' us p) = cfgRange /\
  dbhandler.QueryTime (applyAll' us p) = Format now TimestampFormat.
Proof.
  destruct us as [|t us _] using rev_ind; [congruence|]. intros _.
  rewrite applyAll_snoc. destruct t as [[tm qt] s]. unfold sampleUpdate.
  destruct (writtenField qt) as [[]|]; split; reflexivity.
Qed.

Lemma scalar_applyAll_perm us1 us2 p f :
  us1 ≡ₚ us2 ->
  (forall t t', t ∈ us1 -> t' ∈ us1 -> agree t t') ->
  scalar f (applyAll' us1 p) = scalar f (applyAll' us2 p).
Proof.
  intros Hperm Hagree.
  destruct (decide (Exists (fun t : Tagged => writtenField t.1.2 = Some f) us1))
    as [Hex|Hno].
  - apply Exists_exists in Hex as [t [Ht Hw]].
    destruct (applyAll_populated Format TimestampFormat now cfgRange us1 p f)
      as [t1 [Ht1 [Hw1 Hv1]]]; [exists t; split; assumption|].
    destruct (applyAll_populated Format TimestampFormat now cfgRange us2 p f)
      as [t2 [Ht2 [Hw2 Hv2]]];
      [exists t; split; [rewrite <- Hperm; exact Ht | exact Hw]|].
    rewrite Hv1, Hv2. rewrite <- Hperm in Ht2.
    destruct (Hagree t1 t2 Ht1 Ht2) as [_ [_ [_ [_ Hval]]]].
    apply Hval. rewrite Hw1, Hw2. reflexivity.
  - apply not_Exists_Forall in Hno; [|intros x; apply _].
    rewrite Forall_forall in Hno.
    rewrite !(applyAll_unwritten Format TimestampFormat now cfgRange _ p f);
      [reflexivity | | ].
    + intros t Ht. rewrite <- Hperm in Ht. apply (Hno t Ht).
    + intros t Ht. apply (Hno t Ht).
Qed.

Lemma applyAll_perm us1 us2 p :
  us1 ≡ₚ us2 ->
  (forall t t', t ∈ us1 -> t' ∈ us1 -> agree t t') ->
  applyAll' us1 p = applyAll' us2 p.
Proof.
  intros Hperm Hagree.
  destruct us1 as [|u1 us1'] eqn:E1.
  { apply Permutation_nil_l in Hperm. subst us2. reflexivity. }
  rewrite <- E1 in *.
  assert (Hne1 : us1 <> []) by (rewrite E1; discriminate).
  assert (Hne2 : us2 <> []).
  { intros ->. apply Permutation_nil_r in Hperm. contradiction. }
  destruct (applyAll_described Format TimestampFormat now cfgRange us1 p Hne1)
    as [t1 [Ht1 [Hns1 [Hpod1 [Hm1 Hla1]]]]].
  destruct (applyAll_described Format TimestampFormat now cfgRange us2 p Hne2)
    as [t2 [Ht2 [Hns2 [Hpod2 [Hm2 Hla2]]]]].
  rewrite <- Hperm in Ht2.
  destruct (Hagree t1 t2 Ht1 Ht2) as [Hns [Hpod [Hm [Hla _]]]].
  destruct (applyAll_range_time us1 p Hne1) as [Hr1 Hq1].
  destruct (applyAll_range_time us2 p Hne2) as [Hr2 Hq2].
  apply PodMetric_ext.
  - rewrite Hm1, Hm2. exact Hm.
  - rewrite Hr1, Hr2. reflexivity.
  - rewrite Hpod1, Hpod2. exact Hpod.
  - rewrite Hns1, Hns2. exact Hns.
  - rewrite Hla1, Hla2. exact Hla.
  - rewrite Hq1, Hq2. reflexivity.
  - apply (scalar_applyAll_perm us1 us2 p FQ95 Hperm Hagree).
  - apply (scalar_applyAll_perm us1 us2 p FMax Hperm Hagree).
  - apply (scalar_applyAll_perm us1 us2 p FMin Hperm Hagree).
  - apply (scalar_applyAll_perm us1 us2 p FAvg Hperm Hagree).
  - apply (scalar_applyAll_perm us1 us2 p FInst Hperm Hagree).
Qed.

Lemma fileAll_permutation (l1 l2 : list Tagged) (tbl : gmap Z PodMetric) :
  l1 ≡ₚ l2 -> consistent l1 ->
  fold_left fileSample' l1 tbl = fold_left fileSample' l2 tbl.
Proof.
  intros Hperm Hcons. apply map_eq. intros i. rewrite !fileAll_lookup.
  assert (Hf : filedUnder i l1 ≡ₚ filedUnder i l2)
    by (unfold filedUnder; rewrite Hperm; reflexivity).
  assert (Hag : forall t t', t ∈ filedUnder i l1 -> t' ∈ filedUnder i l1 ->
                  agree t t').
  { intros t t' Ht Ht'. apply elem_of_filedUnder in Ht as [Hi Ht].
    apply elem_of_filedUnder in Ht' as [Hi' Ht'].
    apply Hcons; [exact Ht | exact Ht' | congruence]. }
  pose proof (applyAll_perm _ _ (default new_PodMetric (tbl !! i)) Hf Hag) as E.
  destruct (filedUnder i l1) as [|u1 us1], (filedUnder i l2) as [|u2 us2].
  - reflexivity.
  - apply Permutation_nil_l in Hf. discriminate Hf.
  - apply Permutation_nil_r in Hf. discriminate Hf.
  - rewrite E. reflexivity.
Qed.

(** X6. The order in which samples are folded does not matter as long
    as the samples filed under one fingerprint agree on what they write
    (the same namespace, pod, metric and deployment label, and the same
    value where two of them come from templates that write the same
    field): two sequences of inputs with the same samples then give the
    same state. *)
Theorem aggregate_order_irrelevant (inputs1 inputs2 : list Input)
  (st : State) :
  hasher st = fnv.New32a ->
  tagged inputs1 ≡ₚ tagged inputs2 ->
  consistent (tagged inputs1) ->
  aggregate' inputs1 st = aggregate' inputs2 st.
Proof.
  intros Hh Hperm Hcons. apply State_ext.
  - rewrite !aggregate_events. reflexivity.
  - rewrite !aggregate_table by exact Hh.
    apply fileAll_permutation; assumption.
  - rewrite !aggregate_hasher by exact Hh. reflexivity.
Qed.

End OrderFacts.

(** ** The context and the range *)

Lemma forEach_ext {A} (body1 body2 : A -> State -> Outcome) (l : list A)
  (st : State) :
  (forall a s, body1 a s = body2 a s) ->
  forEach body1 l st = forEach body2 l st.
Proof.
  intros E. revert st. induction l as [|a l IH]; intros st; simpl; [reflexivity|].
  rewrite E. destruct (body2 a st); [apply IH | reflexivity | reflexivity].
Qed.


Section ErrorFacts.

Variable Format : Time -> string -> string.
Variable TimestampFormat : string.
Variable Now : nat -> Time.

Local Abbreviation top' := (top Format TimestampFormat Now).
Local Abbreviation Top' := (Top Format TimestampFormat Now).
Local Abbreviation run' := (run Format TimestampFormat Now).
Local Abbreviation step' := (step Format TimestampFormat).
Local Abbreviation queryAndFold' := (queryAndFold Format TimestampFormat).

Lemma top_ext (ctx : option context.Context) (queryType range : string)
  (api1 api2 : v1.API) :
  (forall n q ts, v1.Query api1 n ctx q ts = v1.Query api2 n ctx q ts) ->
  top' {| Context := ctx; QueryType := queryType; Range := range;
          PrometheusClient := api1 |} =
  top' {| Context := ctx; QueryType := queryType; Range := range;
          PrometheusClient := api2 |}.
Proof.
  intros Hapi. unfold top. simpl QueryType.
  destruct (selectQueryTemplates queryType) as [qts [e|]]; [reflexivity|].
  destruct (template.Parse appLabelQuery) as [tmpl|]; [|reflexivity].
  unfold runQueries.
  rewrite (forEach_ext
    (fun tm => forEach (queryAndFold' {| Context := ctx; QueryType := queryType;
                           Range := range; PrometheusClient := api1 |}
                          (Now 0%nat) tmpl tm) qts)
    (fun tm => forEach (queryAndFold' {| Context := ctx; QueryType := queryType;
                           Range := range; PrometheusClient := api2 |}
                          (Now 0%nat) tmpl tm) qts)); [reflexivity|].
  intros tm s. apply forEach_ext. intros qt s'.
  unfold queryAndFold. simpl. destruct (composeQuery _ _ _ _); try reflexivity.
  rewrite Hapi. reflexivity.
Qed.

(** X9. [Top] never hands a nil context to the query interface: what an
    interface does when it is given no context has no influence on the
    run. *)
Theorem Top_never_nil_context (cfg : Config) (api2 : v1.API) :
  (forall n c q ts,
     v1.Query (PrometheusClient cfg) n (Some c) q ts =
     v1.Query api2 n (Some c) q ts) ->
  Top' cfg =
  Top' {| Context := Context cfg; QueryType := QueryType cfg;
          Range := Range cfg; PrometheusClient := api2 |}.
Proof.
  intros Hapi. destruct cfg as [ctx qt range api1]. unfold Top. simpl in *.
  destruct ctx as [c|]; simpl;
    destruct (len range =? 0); simpl; apply top_ext; intros; apply Hapi.
Qed.

(** X10. The range of every record a run through [Top] returns is the
    configured range, or [10m] when none is configured; it is never
    empty. *)
Theorem Top_range_default (cfg : Config) (tbl : PodMetricTable)
  (e : option error) (p : PodMetric) :
  (Top' cfg).1 = Returned tbl e ->
  p ∈ tbl ->
  dbhandler.Range p =
    (if String.eqb (Range cfg) EmptyString then defaultRange else Range cfg) /\
  dbhandler.Range p <> EmptyString.
Proof.
  unfold Top. intros Hret Hp.
  rewrite (top_record_range Format TimestampFormat Now _ tbl e p Hret Hp).
  clear Hret.
  destruct cfg as [ctx qt range api]. simpl.
  destruct range as [|c r].
  - destruct ctx; simpl; split; (reflexivity || discriminate).
  - destruct ctx; simpl; split; (reflexivity || discriminate).
Qed.

End ErrorFacts.

(** ** CSV rendering *)

Lemma append_cons (c : ascii) (s t : string) :
  String.append (String c s) t = String c (String.append s t).
Proof. reflexivity. Qed.

Lemma append_assoc (s t u : string) :
  String.append (String.append s t) u = String.append s (String.append t u).
Proof.
  induction s as [|c s IH]; [reflexivity|].
  rewrite !append_cons, IH. reflexivity.
Qed.

Lemma countByte_append (c : ascii) (s t : string) :
  countByte c (String.append s t) = (countByte c s + countByte c t)%nat.
Proof.
  induction s as [|c' s IH]; [reflexivity|].
  rewrite append_cons. cbn [countByte]. rewrite IH. lia.
Qed.

Lemma prefix_append (sub s t : string) :
  String.prefix sub s = true -> String.prefix sub (String.append s t) = true.
Proof.
  revert s. induction sub as [|c sub IH]; intros s H.
  - destruct (String.append s t); reflexivity.
  - destruct s as [|c' s]; [discriminate H|].
    rewrite append_cons. simpl in *.
    destruct (ascii_dec c c'); [apply IH; exact H | discriminate H].
Qed.

Lemma Contains_append_l (s t sub : string) :
  Contains s sub = true -> Contains (String.append s t) sub = true.
Proof.
  induction s as [|c s IH]; intros H.
  - cbn [Contains] in H. rewrite orb_false_r in H.
    destruct sub; [|discriminate H]. destruct t; reflexivity.
  - rewrite append_cons. cbn [Contains] in *.
    apply orb_true_iff in H as [H|H].
    + apply orb_true_iff. left.
      apply (prefix_append sub (String c s) t H).
    + apply orb_true_iff. right. apply IH. exact H.
Qed.

Lemma Contains_append_r (s t sub : string) :
  Contains t sub = true -> Contains (String.append s t) sub = true.
Proof.
  intros H. induction s as [|c s IH]; [exact H|].
  rewrite append_cons. cbn [Contains]. rewrite IH. apply orb_true_r.
Qed.

Section CSVFacts.

Variable FormatFloat_e : float64 -> string.

Local Abbreviation row := (PodMetric_MarshalCSV FormatFloat_e).
Local Abbreviation table := (PodMetricTable_MarshalCSV FormatFloat_e).
Local Abbreviation cells := (csvCells FormatFloat_e).

Lemma row_cells (p : PodMetric) :
  row p = fold_right (fun cell rest => cell +:+ "," +:+ rest) newline (cells p).
Proof. reflexivity. Qed.

Lemma table_rows (pm : PodMetricTable) (buf : string) :
  fold_left (fun buf line => buf +:+ row line) pm buf =
  buf +:+ fold_right (fun line rest => row line +:+ rest) EmptyString pm.
Proof.
  revert buf. induction pm as [|p pm IH]; intros buf; simpl.
  - rewrite append_empty_r. reflexivity.
  - rewrite IH, append_assoc. reflexivity.
Qed.

Lemma countByte_cells (c : ascii) (l : list string) (tail : string) :
  countByte c (fold_right (fun cell rest => cell +:+ "," +:+ rest) tail l) =
  (length l * countByte c "," + sum_list (countByte c <$> l) +
   countByte c tail)%nat.
Proof.
  induction l as [|x l IH]; [reflexivity|].
  cbn [fold_right fmap list_fmap sum_list length sum_list_with Nat.mul].
  rewrite !countByte_append, IH.
  change (sum_list (countByte c x :: (countByte c <$> l)))
    with (countByte c x + sum_list (countByte c <$> l))%nat.
  unfold id. generalize (length l * countByte c ",")%nat. intros n. lia.
Qed.

(** X11. The CSV of a table is the header line followed by one line per
    record: as long as no cell contains a line feed, the text has one
    line feed more than the table has records.  An empty table renders
    as the header alone. *)
Theorem MarshalCSV_lines (pm : PodMetricTable) :
  (forall p cell, p ∈ pm -> cell ∈ cells p ->
                  countByte (ascii_of_nat 10) cell = 0%nat) ->
  countByte (ascii_of_nat 10) (table pm) = S (length pm) /\
  table [] = csvHeader.
Proof.
  intros Hclean. split; [|reflexivity].
  unfold PodMetricTable_MarshalCSV. rewrite table_rows, countByte_append.
  assert (Hrows : countByte (ascii_of_nat 10)
            (fold_right (fun line rest => row line +:+ rest) EmptyString pm)
          = length pm).
  { induction pm as [|p pm IH]; [reflexivity|].
    cbn [fold_right length]. rewrite countByte_append, IH.
    - rewrite row_cells, countByte_cells.
      assert (Hsum : sum_list (countByte (ascii_of_nat 10) <$> cells p) = 0%nat).
      { assert (Hall : forall cell, cell ∈ cells p ->
                  countByte (ascii_of_nat 10) cell = 0%nat)
          by (intros cell Hc; apply (Hclean p cell);
              [apply list_elem_of_here | exact Hc]).
        induction (cells p) as [|x l IHl]; [reflexivity|].
        cbn [fmap list_fmap]. simpl sum_list.
        rewrite (Hall x (list_elem_of_here _ _)), IHl; [reflexivity|].
        intros cell Hc. apply Hall, list_elem_of_further, Hc. }
      rewrite Hsum. simpl. lia.
    - intros p' cell Hp'. apply Hclean, list_elem_of_further, Hp'. }
  rewrite Hrows. reflexivity.
Qed.

(** X12. Cells are written as they are, each followed by a comma: a
    line has ten commas more than its cells contain, one more than the
    nine of the header, so every line ends in an eleventh, empty,
    cell. *)
Theorem MarshalCSV_commas (p : PodMetric) :
  countByte ","%char (row p) =
    (10 + sum_list (countByte ","%char <$> cells p))%nat /\
  countByte ","%char csvHeader = 9%nat /\
  length (cells p) = 10%nat.
Proof.
  split; [|split; reflexivity].
  rewrite row_cells, countByte_cells.
  change (length (cells p)) with 10%nat.
  change (countByte ","%char ",") with 1%nat.
  change (countByte ","%char newline) with 0%nat. lia.
Qed.

(** X13. In the CSV of any run the [inst] cell of every line is the
    rendering of zero, whatever the selector and whatever the samples:
    the last of the ten cells of a returned record is
    [floatToString 0]. *)
Theorem top_csv_inst_cell_zero (Format : Time -> string -> string)
  (TimestampFormat : string) (Now : nat -> Time) (cfg : Config)
  (tbl : PodMetricTable) (e : option error) (p : PodMetric) :
  (top Format TimestampFormat Now cfg).1 = Returned tbl e ->
  p ∈ tbl ->
  cells p !! 9%nat = Some (floatToString FormatFloat_e 0) /\
  row p = fold_right (fun cell rest => cell +:+ "," +:+ rest) newline (cells p).
Proof.
  intros Hret Hp. split; [|apply row_cells].
  unfold csvCells. cbn [lookup list_lookup].
  rewrite (top_never_writes_InstValue Format TimestampFormat Now cfg tbl e p Hret Hp).
  reflexivity.
Qed.

End CSVFacts.

(** ** Composing and executing in [pkg/top/queries.go] *)

Lemma generateTargetMetricQueries_composed (cfg : Config) :
  queries_go.generateTargetMetricQueries cfg =
  Some (inl (queries_go_top.composed cfg)).
Proof.
  destruct cfg as [ctx qt range api].
  unfold queries_go.generateTargetMetricQueries, queries_go_top.composed,
    queries_go.selectQueryTemplates, queries_go_top.selectedKinds.
  cbn [QueryType Range].
  unfold queries_go.T_QUANTILE, queries_go.T_AVERAGE, queries_go.T_INSTANT.
  destruct (String.eqb qt "q"); [reflexivity|].
  destruct (String.eqb qt "a"); [reflexivity|].
  destruct (String.eqb qt "i"); reflexivity.
Qed.

(** X14. The composer of [pkg/top/queries.go] neither fails nor panics:
    for every selector and range it returns one query per (template,
    metric) pair, templates outermost, each the template with metric and
    range substituted inside the label-join transform, whose metadata
    selector asks for a non-empty pod and a non-empty [label_app]. *)
Theorem generateTargetMetricQueries_total (cfg : Config) :
  queries_go.generateTargetMetricQueries cfg =
    Some (inl (flat_map
      (fun k => map (fun tm => queries_go_top.labelJoin
                                 (substituted k tm (Range cfg)))
                    queries_go.targetMetrics)
      (queries_go_top.selectedKinds (QueryType cfg)))) /\
  length (queries_go_top.composed cfg) =
    (length (queries_go.selectQueryTemplates (QueryType cfg)).1 *
     length queries_go.targetMetrics)%nat /\
  Forall (fun q =>
            Contains q ("kube_pod_labels{pod!=" +:+ dq +:+ dq +:+
                        ", label_app!=" +:+ dq +:+ dq +:+ "})") = true)
         (queries_go_top.composed cfg).
Proof.
  split; [apply generateTargetMetricQueries_composed|]. split.
  - unfold queries_go_top.composed, queries_go.selectQueryTemplates,
      queries_go_top.selectedKinds,
      queries_go.T_QUANTILE, queries_go.T_AVERAGE, queries_go.T_INSTANT.
    destruct (String.eqb (QueryType cfg) "q"); [reflexivity|].
    destruct (String.eqb (QueryType cfg) "a"); [reflexivity|].
    destruct (String.eqb (QueryType cfg) "i"); reflexivity.
  - unfold queries_go_top.composed. apply Forall_forall. intros q Hq.
    apply list_elem_of_In, in_flat_map in Hq as [k [_ Hq]].
    apply in_map_iff in Hq as [tm [<- _]].
    unfold queries_go_top.labelJoin.
    rewrite <- !append_assoc. apply Contains_append_l.
    rewrite !append_assoc. vm_compute. reflexivity.
Qed.

Lemma forQueries_spec (cfg : Config) (now : Time) (qs : list string)
  (results : list queries_go_top.QueryResult)
  (acts : list queries_go_top.Action) :
  exists calls,
    (queries_go_top.forQueries cfg now qs results acts).2 = acts ++ calls /\
    Forall (queries_go_top.callAt (Context cfg) now) calls /\
    flat_map queries_go_top.queryOf calls `prefix_of` qs /\
    match (queries_go_top.forQueries cfg now qs results acts).1.2 with
    | None =>
        (queries_go_top.forQueries cfg now qs results acts).1.1 =
          results ++ flat_map queries_go_top.resultOf calls /\
        flat_map queries_go_top.queryOf calls = qs /\
        queries_go_top.Query <$> flat_map queries_go_top.resultOf calls = qs
    | Some _ => (queries_go_top.forQueries cfg now qs results acts).1.1 = []
    end.
Proof.
  revert results acts. induction qs as [|q qs IH]; intros results acts.
  - exists []. simpl. rewrite !app_nil_r.
    split; [reflexivity|]. split; [constructor|].
    split; [apply prefix_nil | repeat split].
  - cbn [queries_go_top.forQueries].
    set (r := v1.Query (PrometheusClient cfg) (length acts) (Context cfg) q now).
    set (a := queries_go_top.ActQuery (Context cfg) q now r).
    assert (Hstop : forall e,
      exists calls, acts ++ [a] = acts ++ calls /\
        Forall (queries_go_top.callAt (Context cfg) now) calls /\
        flat_map queries_go_top.queryOf calls `prefix_of` q :: qs /\
        match (Some e : option error) with
        | None => False
        | Some _ => ([] : list queries_go_top.QueryResult) = []
        end).
    { intros e. exists [a]. split; [reflexivity|]. split.
      - constructor; [split; reflexivity | constructor].
      - split; [|reflexivity]. simpl. apply prefix_cons, prefix_nil. }
    destruct (v1.err r) as [e|] eqn:He; [apply (Hstop (ErrQueryFailed q e))|].
    destruct (v1.value r) as [| | |v|] eqn:Hv;
      try apply (Hstop ErrExpectedVector).
    destruct (IH (results ++ [{| queries_go_top.Query := q;
                                 queries_go_top.Vector := v;
                                 queries_go_top.Warnings := v1.warnings r |}])
                 (acts ++ [a])) as [calls [Hacts [Hcalls [Hpre Hres]]]].
    exists (a :: calls). split; [rewrite Hacts, <- app_assoc; reflexivity|].
    split; [constructor; [split; reflexivity | exact Hcalls]|].
    split; [simpl; apply prefix_cons; exact Hpre|].
    destruct (queries_go_top.forQueries _ _ _ _ _).1.2.
    + exact Hres.
    + destruct Hres as [Hr [Hq Hm]].
      assert (Ea : queries_go_top.resultOf a =
                   [{| queries_go_top.Query := q; queries_go_top.Vector := v;
                       queries_go_top.Warnings := v1.warnings r |}]).
      { unfold a. cbn [queries_go_top.resultOf]. rewrite Hv. reflexivity. }
      cbn [flat_map]. rewrite Ea.
      split; [rewrite Hr, <- app_assoc; reflexivity|].
      change (queries_go_top.queryOf a) with [q].
      split; [cbn [app]; rewrite Hq; reflexivity|].
      rewrite fmap_app, Hm. reflexivity.
Qed.

Lemma queries_go_top_calls (Now : nat -> Time) (cfg : Config) :
  exists results e calls,
    queries_go_top.top Now cfg =
      Some ((results, e), queries_go_top.ActNow (Now 0%nat) :: calls) /\
    Forall (queries_go_top.callAt (Context cfg) (Now 0%nat)) calls /\
    flat_map queries_go_top.queryOf calls `prefix_of`
      queries_go_top.composed cfg /\
    match e with
    | None =>
        results = flat_map queries_go_top.resultOf calls /\
        queries_go_top.Query <$> results = queries_go_top.composed cfg
    | Some _ => results = []
    end.
Proof.
  unfold queries_go_top.top. rewrite generateTargetMetricQueries_composed.
  destruct (forQueries_spec cfg (Now 0%nat) (queries_go_top.composed cfg) []
              [queries_go_top.ActNow (Now 0%nat)])
    as [calls [Hacts [Hcalls [Hpre Hres]]]].
  destruct (queries_go_top.forQueries _ _ _ _ _) as [[results e] acts].
  simpl in *. subst acts. exists results, e, calls.
  split; [reflexivity|]. split; [exact Hcalls|]. split; [exact Hpre|].
  destruct e; [exact Hres|].
  destruct Hres as [-> [_ Hm]]. split; [reflexivity | exact Hm].
Qed.

(** X15. The run of [pkg/top/queries.go] is all or nothing and keeps
    what the interface returned: it reads the clock once, before the
    first query; every query is made at that instant; when it returns no
    error there is one result per composed query, in order, holding the
    query, the vector and the warnings of its call; when it returns an
    error there are no results.  It never panics. *)
Theorem queries_go_top_all_or_nothing (Now : nat -> Time) (cfg : Config) :
  exists results e calls,
    queries_go_top.top Now cfg =
      Some ((results, e), queries_go_top.ActNow (Now 0%nat) :: calls) /\
    Forall (queries_go_top.callAt (Context cfg) (Now 0%nat)) calls /\
    flat_map queries_go_top.queryOf calls `prefix_of`
      queries_go_top.composed cfg /\
    match e with
    | None =>
        results = flat_map queries_go_top.resultOf calls /\
        queries_go_top.Query <$> results = queries_go_top.composed cfg
    | Some _ => results = []
    end.
Proof. apply queries_go_top_calls. Qed.

(** X16. Through [Top] of [pkg/top/queries.go] every query is made with
    a context, the background context when the configuration has none,
    and the queries are composed for the range [10m] when the
    configuration names no range. *)
Theorem queries_go_Top_defaults (Now : nat -> Time) (cfg : Config) :
  exists results e calls,
    queries_go_top.Top Now cfg =
      Some ((results, e), queries_go_top.ActNow (Now 0%nat) :: calls) /\
    Forall (queries_go_top.callAt
              (Some (default context.Background (Context cfg))) (Now 0%nat))
           calls /\
    flat_map queries_go_top.queryOf calls `prefix_of`
      queries_go_top.composed
        {| Context := Context cfg; QueryType := QueryType cfg;
           Range := if String.eqb (Range cfg) EmptyString
                    then "10m" else Range cfg;
           PrometheusClient := PrometheusClient cfg |}.
Proof.
  destruct cfg as [ctx qt range api]. unfold queries_go_top.Top.
  cbn [Range Context QueryType PrometheusClient].
  match goal with
  | |- context [queries_go_top.top Now ?c] =>
      destruct (queries_go_top_calls Now c)
        as [results [e [calls [Htop [Hcalls [Hpre _]]]]]]
  end.
  exists results, e, calls. split; [exact Htop|].
  destruct (String.eqb range EmptyString), ctx as [c|];
    cbn [Range Context QueryType PrometheusClient default from_option id] in *;
    split; assumption.
Qed.

(** ** Failing fast *)

Section FailFast.

Variable Format : Time -> string -> string.
Variable TimestampFormat : string.
Variable Now : nat -> Time.

Local Abbreviation top' := (top Format TimestampFormat Now).
Local Abbreviation run' := (run Format TimestampFormat Now).

(** X17. A run stops at the first query that is not answered with a
    vector: no query is made after it. *)
Theorem top_stops_at_first_failure (cfg : Config) (evs1 evs2 : list Event)
  (tm qt q : string) (ts : Time) (r : v1.QueryReturn) :
  (top' cfg).2 = evs1 ++ EvQuery tm qt q ts r :: evs2 ->
  answered r = false ->
  evs2 = [].
Proof.
  intros Hev Hbad.
  assert (Hevs : (top' cfg).2 = events (stateOf (run' cfg)))
    by (rewrite top_run; destruct (run' cfg); reflexivity).
  rewrite Hevs in Hev. clear Hevs.
  pose proof (run_inv Format TimestampFormat Now cfg) as Hinv.
  assert (Hgood : forall qs,
            Forall (fun e => queryAt (Now 0%nat) e /\ answeredQuery e) qs ->
            EvQuery tm qt q ts r ∈ EvNow (Now 0%nat) :: qs -> False).
  { intros qs Hqs Hin. apply elem_of_cons in Hin as [Hin|Hin]; [discriminate Hin|].
    rewrite Forall_forall in Hqs. destruct (Hqs _ Hin) as [_ Ha].
    simpl in Ha. congruence. }
  destruct (run' cfg) as [st|e st|st]; simpl in *.
  - exfalso. destruct Hinv as [[qs [Hqs Hall]] _]. apply (Hgood qs Hall).
    rewrite <- Hqs, Hev. apply elem_of_app. right. apply list_elem_of_here.
  - destruct Hinv as [qs [e0 [Hqs [Hall _]]]].
    destruct evs2 as [|y evs2] using rev_ind; [reflexivity|]. exfalso.
    clear IHevs2. rewrite Hev in Hqs.
    change (evs1 ++ EvQuery tm qt q ts r :: evs2 ++ [y])
      with (evs1 ++ (EvQuery tm qt q ts r :: evs2) ++ [y]) in Hqs.
    rewrite app_assoc in Hqs.
    change (EvNow (Now 0%nat) :: qs ++ [e0])
      with ((EvNow (Now 0%nat) :: qs) ++ [e0]) in Hqs.
    apply app_inj_tail in Hqs as [Hqs _].
    apply (Hgood qs Hall). rewrite <- Hqs.
    apply elem_of_app. right. apply list_elem_of_here.
  - contradiction.
Qed.

(** X18. Composing a query never fails and never panics: for every
    template the selector yields, every metric and every range text, the
    label template and the query template parse and execute, and give
    the label-join transform around the substituted template.  So an
    error [top] returns is never one of composition: it is the failure
    of a query, which names one of the composed queries, or a value
    that is not a vector, and the table returned with it is empty. *)
Theorem top_composition_never_fails (cfg : Config) (tm qt : string) :
  qt ∈ (selectQueryTemplates (QueryType cfg)).1 ->
  (exists tmpl t k,
     template.Parse appLabelQuery = Some tmpl /\
     template.Parse qt = Some t /\
     qt = templateOf k /\
     composeQuery tmpl (Range cfg) tm qt =
       ComposedQuery (labelJoin (substituted k tm (Range cfg)))) /\
  (forall tbl e,
     (top' cfg).1 = Returned tbl (Some e) ->
     tbl = [] /\
     match e with
     | ErrExpectedVector => True
     | ErrQueryFailed q _ =>
         q ∈ expectedQueries (Range cfg) targetMetrics
               (documentedKinds (QueryType cfg))
     | _ => False
     end).
Proof.
  intros Hqt. split.
  - rewrite selectQueryTemplates_documented in Hqt. cbn [fst] in Hqt.
    apply list_elem_of_fmap in Hqt as [k [-> _]].
    destruct (composeQuery_selected (Range cfg))
      as [tmpl [Hp Hc]].
    assert (Ht : exists t, template.Parse (templateOf k) = Some t)
      by (destruct k; eexists; reflexivity).
    destruct Ht as [t Ht].
    exists tmpl, t, k. repeat split; [exact Hp | exact Ht | apply Hc].
  - intros tbl e. rewrite top_run.
    pose proof (run_error_kind Format TimestampFormat Now cfg) as Hkind.
    destruct (run' cfg) as [st|e' st|st]; cbn [fst]; intros [= <- <-].
    split; [reflexivity|]. destruct e'; try contradiction; exact Hkind.
Qed.

End FailFast.

(** ** Witnesses of the further properties *)

Lemma top_one_record_per_fingerprint_witness :
  length (exTable runDefault) = 2%nat /\
  length (tagged (inputsOf runDefault.2)) = 8%nat /\
  NoDup (recordId <$> exTable runDefault).
Proof.
  destruct (top_one_record_per_fingerprint exFormat exLayout exNow
              (exConfig EmptyString (apiOnePod [])) (exTable runDefault))
    as [_ [Hnd _]]; [vm_compute; reflexivity|].
  split; [vm_compute; reflexivity|]. split; [vm_compute; reflexivity|].
  exact Hnd.
Defined.

Lemma top_last_sample_wins_witness :
  exists r,
    filter (fun p => recordId p =
                     taggedId (cpuMetric, quantileOverTimeTemplate,
                               exSample "ns" "p1" "app" 9))
      (exTable (runQuantile apiSamePodTwice)) = [r] /\
    scalar FQ95 r = 9.
Proof.
  apply (top_last_sample_wins exFormat exLayout exNow
           (exConfig "q" apiSamePodTwice)
           (exTable (runQuantile apiSamePodTwice))
           [(cpuMetric, quantileOverTimeTemplate, exSample "ns" "p1" "app" 7)]
           []
           (cpuMetric, quantileOverTimeTemplate, exSample "ns" "p1" "app" 9)
           FQ95).
  - vm_compute. reflexivity.
  - vm_compute. reflexivity.
  - reflexivity.
  - intros t' Ht'. inversion Ht'.
Defined.

Lemma top_unselected_field_zero_witness :
  scalar FAvg (hd new_PodMetric (exTable (runQuantile (apiOnePod [])))) = 0.
Proof.
  apply (top_unselected_field_zero exFormat exLayout exNow
           (exConfig "q" (apiOnePod []))
           (exTable (runQuantile (apiOnePod []))) None FAvg).
  - vm_compute. reflexivity.
  - apply (list_elem_of_lookup_2 _ 0%nat). vm_compute. reflexivity.
  - intros k Hk. apply list_elem_of_singleton in Hk. subst k. discriminate.
Defined.

Lemma top_record_describes_last_sample_witness :
  label (noLabels 2) "namespace" = EmptyString /\
  exists r,
    filter (fun p => recordId p =
                     taggedId (memoryMetric, quantileOverTimeTemplate, noLabels 2))
      (exTable (runQuantile apiNoLabels)) = [r] /\
    dbhandler.Namespace r =
      label (memoryMetric, quantileOverTimeTemplate, noLabels 2).2 "namespace" /\
    dbhandler.Pod r =
      label (memoryMetric, quantileOverTimeTemplate, noLabels 2).2 "pod" /\
    dbhandler.Metric r =
      (memoryMetric, quantileOverTimeTemplate, noLabels 2).1.1 /\
    dbhandler.LabelApp r =
      label (memoryMetric, quantileOverTimeTemplate, noLabels 2).2 "label_app".
Proof.
  split; [reflexivity|].
  apply (top_record_describes_last_sample exFormat exLayout exNow
           (exConfig "q" apiNoLabels)
           (exTable (runQuantile apiNoLabels))
           [(cpuMetric, quantileOverTimeTemplate, noLabels 1)]
           []
           (memoryMetric, quantileOverTimeTemplate, noLabels 2)).
  - vm_compute. reflexivity.
  - vm_compute. reflexivity.
  - intros t' Ht'. inversion Ht'.
Defined.

Lemma top_records_wellformed_witness :
  dbhandler.Range (hd new_PodMetric (exTable runDefault)) = "10m" /\
  dbhandler.Metric (hd new_PodMetric (exTable runDefault)) ∈ targetMetrics /\
  0 <= recordId (hd new_PodMetric (exTable runDefault)) < 2 ^ 32.
Proof.
  apply (top_records_wellformed exFormat exLayout exNow
           (exConfig EmptyString (apiOnePod [])) (exTable runDefault) None).
  - vm_compute. reflexivity.
  - apply (list_elem_of_lookup_2 _ 0%nat). vm_compute. reflexivity.
Defined.

Lemma aggregate_order_irrelevant_witness :
  aggregate exFormat exLayout 1000 "10m"
    [(cpuMetric, quantileOverTimeTemplate,
      [exSample "ns" "p1" "app" 1; exSample "ns" "p2" "app" 2])]
    (initState []) =
  aggregate exFormat exLayout 1000 "10m"
    [(cpuMetric, quantileOverTimeTemplate,
      [exSample "ns" "p2" "app" 2; exSample "ns" "p1" "app" 1])]
    (initState []).
Proof.
  apply (aggregate_order_irrelevant exFormat exLayout 1000 "10m").
  - reflexivity.
  - apply perm_swap.
  - intros t t' Ht Ht' Hid. unfold tagged in Ht, Ht'. simpl in Ht, Ht'.
    apply elem_of_cons in Ht as [->|Ht];
      [|apply list_elem_of_singleton in Ht; subst t];
      (apply elem_of_cons in Ht' as [->|Ht'];
        [|apply list_elem_of_singleton in Ht'; subst t']);
      first [ repeat split; intros; reflexivity
            | vm_compute in Hid; discriminate Hid ].
Defined.


Lemma Top_never_nil_context_witness :
  Top exFormat exLayout exNow
    {| Context := None; QueryType := "q"; Range := EmptyString;
       PrometheusClient := apiNeedsContext |} =
  Top exFormat exLayout exNow
    {| Context := None; QueryType := "q"; Range := EmptyString;
       PrometheusClient := apiOnePod [] |}.
Proof.
  apply (Top_never_nil_context exFormat exLayout exNow
           {| Context := None; QueryType := "q"; Range := EmptyString;
              PrometheusClient := apiNeedsContext |} (apiOnePod [])).
  intros n c q ts. reflexivity.
Defined.

Lemma Top_range_default_witness :
  dbhandler.Range
    (hd new_PodMetric
       (exTable (Top exFormat exLayout exNow
                   {| Context := None; QueryType := "q"; Range := EmptyString;
                      PrometheusClient := apiOnePod [] |}))) = defaultRange /\
  dbhandler.Range
    (hd new_PodMetric
       (exTable (Top exFormat exLayout exNow
                   {| Context := None; QueryType := "q"; Range := EmptyString;
                      PrometheusClient := apiOnePod [] |}))) <> EmptyString.
Proof.
  apply (Top_range_default exFormat exLayout exNow
           {| Context := None; QueryType := "q"; Range := EmptyString;
              PrometheusClient := apiOnePod [] |}
           (exTable (Top exFormat exLayout exNow
                       {| Context := None; QueryType := "q"; Range := EmptyString;
                          PrometheusClient := apiOnePod [] |})) None).
  - vm_compute. reflexivity.
  - apply (list_elem_of_lookup_2 _ 0%nat). vm_compute. reflexivity.
Defined.

Lemma MarshalCSV_lines_witness :
  countByte (ascii_of_nat 10)
    (PodMetricTable_MarshalCSV exFormatFloat (exTable runDefault)) = 3%nat /\
  PodMetricTable_MarshalCSV exFormatFloat [] = csvHeader.
Proof.
  apply (MarshalCSV_lines exFormatFloat (exTable runDefault)).
  assert (H : Forall (fun p => Forall (fun cell =>
                countByte (ascii_of_nat 10) cell = 0%nat)
                (csvCells exFormatFloat p)) (exTable runDefault))
    by (vm_compute; repeat constructor).
  intros p cell Hp Hc. rewrite Forall_forall in H.
  specialize (H p Hp). rewrite Forall_forall in H. apply (H cell Hc).
Defined.

Lemma top_csv_inst_cell_zero_witness :
  csvCells exFormatFloat
    (hd new_PodMetric (exTable (runQuantile (apiOnePod [])))) !! 9%nat =
  Some "0e+00".
Proof.
  apply (top_csv_inst_cell_zero exFormatFloat exFormat exLayout exNow
           (exConfig "q" (apiOnePod []))
           (exTable (runQuantile (apiOnePod []))) None).
  - vm_compute. reflexivity.
  - apply (list_elem_of_lookup_2 _ 0%nat). vm_compute. reflexivity.
Defined.

Lemma top_stops_at_first_failure_witness :
  exists e1 e2 e3,
    (top exFormat exLayout exNow (exConfig EmptyString apiSecondFails)).2 =
      [e1; e2; e3] /\
    ([] : list Event) = [].
Proof.
  eexists _, _, _. split; [vm_compute; reflexivity|].
  apply (top_stops_at_first_failure exFormat exLayout exNow
           (exConfig EmptyString apiSecondFails)
           [EvNow 1000;
            EvQuery cpuMetric quantileOverTimeTemplate
              (labelJoin (substituted Quantile95 cpuMetric "10m")) 1000
              (exReturn [exSample "ns" "p1" "app" 1] [])]
           []
           cpuMetric avgOverTimeTemplate
           (labelJoin (substituted Average cpuMetric "10m")) 1000
           {| v1.value := model.NilValue; v1.warnings := [];
              v1.err := Some "connection refused" |}).
  - vm_compute. reflexivity.
  - reflexivity.
Defined.

(* ===================================================================== *)
(** * The record of one pod, and the queries of a failing run *)
(* ===================================================================== *)

Section SharedRecord.

Variable Format : Time -> string -> string.
Variable TimestampFormat : string.
Variable Now : nat -> Time.

Local Abbreviation top' := (top Format TimestampFormat Now).


End SharedRecord.



(** C5 (counterexample).  The second query of a default run fails: the
    run has reached execution, and of the 2 * 4 queries of its metrics
    and kinds it has composed two. *)
Lemma failing_run_composes_fewer_queries :
  (exists q1 q2, queriesOf (runWith apiSecondFails).2 = [q1; q2]) /\
  (length targetMetrics * length (selectQueryTemplates EmptyString).1)%nat
    = 8%nat /\
  (runWith apiSecondFails).1 =
    Returned [] (Some (ErrQueryFailed
                         (labelJoin (substituted Average cpuMetric "10m"))
                         "connection refused")).
Proof.
  split; [eexists _, _; vm_compute; reflexivity|].
  split; vm_compute; reflexivity.
Qed.

Lemma top_composition_never_fails_witness :
  (exists tmpl t k,
     template.Parse appLabelQuery = Some tmpl /\
     template.Parse instantTemplate = Some t /\
     instantTemplate = templateOf k /\
     composeQuery tmpl (Range (exConfig "i" apiSecondFails)) cpuMetric
       instantTemplate =
       ComposedQuery
         (labelJoin (substituted k cpuMetric
                       (Range (exConfig "i" apiSecondFails))))) /\
  (forall tbl e,
     (top exFormat exLayout exNow (exConfig "i" apiSecondFails)).1 =
       Returned tbl (Some e) ->
     tbl = [] /\
     match e with
     | ErrExpectedVector => True
     | ErrQueryFailed q _ =>
         q ∈ expectedQueries (Range (exConfig "i" apiSecondFails))
               targetMetrics
               (documentedKinds (QueryType (exConfig "i" apiSecondFails)))
     | _ => False
     end).
Proof.
  apply (top_composition_never_fails exFormat exLayout exNow
           (exConfig "i" apiSecondFails) cpuMetric instantTemplate).
  vm_compute. apply list_elem_of_here.
Defined.
